(** * Verification of [generate_icons.py]

    A shallow embedding of the icon generator: the rounded-rectangle
    primitives [draw_rounded_rect] and [draw_filled_rounded_rect], the
    layered composition routine [create_cyberpunk_icon] and the manifest
    builder [generate_contents_json].

    Python integers are unbounded, so they are modelled by [Z]; [//] with
    the positive divisor 2 is [Z.div], [min]/[max] are [Z.min]/[Z.max].
    The script draws through Pillow's [ImageDraw] object: every primitive
    is modelled by the list of [draw.*] calls it issues, in order, and a
    canvas is obtained by running those calls through a Pillow backend. *)

From Stdlib Require Import ZArith List String Ascii Lia DecimalString.
From stdpp Require Import base option list strings gmap.
Import ListNotations.
Local Open Scope Z_scope.

(** ** Pillow's drawing interface, as the script uses it *)

Module Pillow.

(** A colour argument is a Python tuple of three or of four channels:
    the script passes both ([NEON_MAGENTA] and [( *NEON_CYAN, 40)]). *)
Inductive color : Type :=
| RGB (r g b : Z)
| RGBA (r g b a : Z).

Definition point : Type := (Z * Z)%type.

(** A bounding box [[x0, y0, x1, y1]]. *)
Definition box : Type := (Z * Z * Z * Z)%type.

(** One call on the [ImageDraw] object.  Keyword arguments that the
    script leaves out carry Pillow's defaults ([fill=None],
    [outline=None], [width=1]). *)
Inductive DrawCmd : Type :=
| Line (p q : point) (fill : color) (width : Z)
| Rectangle (xy : box) (fill outline : option color) (width : Z)
| Arc (xy : box) (start stop : Z) (fill : color) (width : Z)
| Ellipse (xy : box) (fill outline : option color) (width : Z).

Definition is_rectangle (c : DrawCmd) : bool :=
  match c with Rectangle _ _ _ _ => true | _ => false end.

(** All the coordinates a call mentions. *)
Definition box_coords (b : box) : list Z :=
  let '(x0, y0, x1, y1) := b in [x0; y0; x1; y1].

Definition cmd_coords (c : DrawCmd) : list Z :=
  match c with
  | Line (px, py) (qx, qy) _ _ => [px; py; qx; qy]
  | Rectangle b _ _ _ => box_coords b
  | Arc b _ _ _ _ => box_coords b
  | Ellipse b _ _ _ => box_coords b
  end.

End Pillow.
Import Pillow.

(** ** The rounded-rectangle primitives *)

(** [draw_rounded_rect(draw, x1, y1, x2, y2, radius, color, width)]:
    the calls issued on [draw]. *)
Definition draw_rounded_rect (x1 y1 x2 y2 radius : Z) (color : color)
    (width : Z) : list DrawCmd :=
  let '(x1, x2) := if x2 <? x1 then (x2, x1) else (x1, x2) in
  let '(y1, y2) := if y2 <? y1 then (y2, y1) else (y1, y2) in
  let max_radius := Z.min ((x2 - x1) / 2) ((y2 - y1) / 2) in
  let radius := Z.min radius max_radius in
  if radius <=? 0 then
    [Rectangle (x1, y1, x2, y2) None (Some color) width]
  else
    [ Line (x1 + radius, y1) (x2 - radius, y1) color width;
      Line (x1 + radius, y2) (x2 - radius, y2) color width;
      Line (x1, y1 + radius) (x1, y2 - radius) color width;
      Line (x2, y1 + radius) (x2, y2 - radius) color width;
      Arc (x1, y1, x1 + radius * 2, y1 + radius * 2) 180 270 color width;
      Arc (x2 - radius * 2, y1, x2, y1 + radius * 2) 270 360 color width;
      Arc (x1, y2 - radius * 2, x1 + radius * 2, y2) 90 180 color width;
      Arc (x2 - radius * 2, y2 - radius * 2, x2, y2) 0 90 color width ].

(** [draw_filled_rounded_rect(draw, x1, y1, x2, y2, radius, color)]. *)
Definition draw_filled_rounded_rect (x1 y1 x2 y2 radius : Z)
    (color : color) : list DrawCmd :=
  let '(x1, x2) := if x2 <? x1 then (x2, x1) else (x1, x2) in
  let '(y1, y2) := if y2 <? y1 then (y2, y1) else (y1, y2) in
  let max_radius := Z.min ((x2 - x1) / 2) ((y2 - y1) / 2) in
  let radius := Z.min radius max_radius in
  if radius <=? 0 then
    [Rectangle (x1, y1, x2, y2) (Some color) None 1]
  else
    [ Rectangle (x1 + radius, y1, x2 - radius, y2) (Some color) None 1;
      Rectangle (x1, y1 + radius, x2, y2 - radius) (Some color) None 1;
      Ellipse (x1, y1, x1 + radius * 2, y1 + radius * 2) (Some color) None 1;
      Ellipse (x2 - radius * 2, y1, x2, y1 + radius * 2) (Some color) None 1;
      Ellipse (x1, y2 - radius * 2, x1 + radius * 2, y2) (Some color) None 1;
      Ellipse (x2 - radius * 2, y2 - radius * 2, x2, y2) (Some color) None 1 ].

(** The two quantities both primitives compute on their normalized
    corners (lines 141-142 and 172-173 of the script). *)
Definition max_radius (x1 y1 x2 y2 : Z) : Z :=
  Z.min ((x2 - x1) / 2) ((y2 - y1) / 2).

Definition clamped_radius (x1 y1 x2 y2 radius : Z) : Z :=
  Z.min radius (max_radius x1 y1 x2 y2).

(** ** The composition routine *)

(** Colour constants of the script: three-channel tuples. *)
Definition rgb : Type := (Z * Z * Z)%type.

Definition DARK_BG : rgb := (10, 10, 15).
Definition NEON_CYAN : rgb := (0, 255, 255).
Definition NEON_MAGENTA : rgb := (255, 0, 150).
Definition NEON_BLUE : rgb := (30, 144, 255).
Definition GRID_COLOR : rgb := (0, 80, 100).
Definition GLOW_CYAN : rgb := (0, 200, 220).

(** A constant passed as it is ([fill=NEON_MAGENTA]). *)
Definition plain (c : rgb) : color := let '(r, g, b) := c in RGB r g b.

(** A constant unpacked next to an alpha value ([( *NEON_CYAN, 40)]). *)
Definition with_alpha (c : rgb) (a : Z) : color :=
  let '(r, g, b) := c in RGBA r g b a.

(** [int(k * scale)] where [scale = size / 512].  The true division by
    512 = 2^9 and the product with the small constant [k] are exact in
    binary64 as long as [|k * size| < 2^53], far beyond every icon size,
    and [int] truncates toward zero: the value is the truncated quotient
    of [k * size] by 512. *)
Definition int_scaled (k size : Z) : Z := Z.quot (k * size) 512.

(** [range(0, stop, step)] for a positive [step]: the multiples of
    [step] below [stop]. *)
Definition py_range (stop step : Z) : list Z :=
  map (fun i => Z.of_nat i * step)
      (seq 0 (Z.to_nat ((stop + step - 1) / step))).

(** [range(n, 0, -1)]: n, n-1, ..., 1. *)
Definition py_countdown (n : nat) : list Z :=
  map (fun i => Z.of_nat n - Z.of_nat i) (seq 0 n).

(** What the composition routine calls: [draw.line] directly, or one of
    the two primitives. *)
Inductive Call : Type :=
| draw_line (p q : point) (fill : color) (width : Z)
| call_rounded_rect (x1 y1 x2 y2 radius : Z) (c : color) (width : Z)
| call_filled_rounded_rect (x1 y1 x2 y2 radius : Z) (c : color).

Definition issue (c : Call) : list DrawCmd :=
  match c with
  | draw_line p q fill width => [Line p q fill width]
  | call_rounded_rect x1 y1 x2 y2 radius c width =>
      draw_rounded_rect x1 y1 x2 y2 radius c width
  | call_filled_rounded_rect x1 y1 x2 y2 radius c =>
      draw_filled_rounded_rect x1 y1 x2 y2 radius c
  end.

(** The rectangle a primitive call is asked to draw. *)
Definition call_rect (c : Call) : option box :=
  match c with
  | draw_line _ _ _ _ => None
  | call_rounded_rect x1 y1 x2 y2 _ _ _ => Some (x1, y1, x2, y2)
  | call_filled_rounded_rect x1 y1 x2 y2 _ _ => Some (x1, y1, x2, y2)
  end.

(** Lines 44-50: the background grid. *)
Definition grid_spacing (size : Z) : Z := int_scaled 32 size.

Definition background_grid (size : Z) : list Call :=
  if 2 <? grid_spacing size then
    map (fun x => draw_line (x, 0) (x, size) (with_alpha GRID_COLOR 40)
                    (Z.max 1 (int_scaled 1 size)))
        (py_range size (grid_spacing size))
    ++
    map (fun y => draw_line (0, y) (size, y) (with_alpha GRID_COLOR 40)
                    (Z.max 1 (int_scaled 1 size)))
        (py_range size (grid_spacing size))
  else [].

(** Lines 52-70: the glowing outer border. *)
Definition padding (size : Z) : Z := int_scaled 60 size.
Definition border_width (size : Z) : Z := Z.max 2 (int_scaled 8 size).
Definition corner_radius (size : Z) : Z := int_scaled 80 size.

Definition outer_glow (size : Z) : list Call :=
  map (fun i =>
         let glow_alpha := 80 - i * 20 in
         let glow_width := border_width size + i * int_scaled 4 size in
         call_rounded_rect (padding size - i * 2) (padding size - i * 2)
           (size - padding size + i * 2) (size - padding size + i * 2)
           (corner_radius size + i * 2) (with_alpha NEON_CYAN glow_alpha)
           glow_width)
      (py_countdown 3).

Definition main_border (size : Z) : list Call :=
  [ call_rounded_rect (padding size) (padding size)
      (size - padding size) (size - padding size)
      (corner_radius size) (plain NEON_CYAN) (border_width size) ].

(** Lines 72-104: the 2x2 tile grid. *)
Definition grid_padding (size : Z) : Z := int_scaled 100 size.
Definition grid_size (size : Z) : Z := size - grid_padding size * 2.
Definition cell_gap (size : Z) : Z := int_scaled 16 size.
Definition cell_size (size : Z) : Z := (grid_size size - cell_gap size) / 2.

Definition tile_positions (size : Z) : list (Z * Z) :=
  [ (grid_padding size, grid_padding size);
    (grid_padding size + cell_size size + cell_gap size, grid_padding size);
    (grid_padding size, grid_padding size + cell_size size + cell_gap size);
    (grid_padding size + cell_size size + cell_gap size,
     grid_padding size + cell_size size + cell_gap size) ].

Definition tile_colors : list rgb :=
  [NEON_CYAN; NEON_MAGENTA; NEON_BLUE; NEON_CYAN].

(** The body of the loop over the cells, for the cell at [(tx, ty)]. *)
Definition tile (size : Z) (color : rgb) (tx ty : Z) : list Call :=
  let cell_corner := int_scaled 12 size in
  map (fun g =>
         let glow_alpha := 60 - g * 20 in
         call_rounded_rect (tx - g) (ty - g)
           (tx + cell_size size + g) (ty + cell_size size + g)
           (cell_corner + g) (with_alpha color glow_alpha)
           (Z.max 1 (int_scaled 2 size)))
      (py_countdown 2)
  ++
  [ call_filled_rounded_rect tx ty (tx + cell_size size) (ty + cell_size size)
      cell_corner (with_alpha color 40);
    call_rounded_rect tx ty (tx + cell_size size) (ty + cell_size size)
      cell_corner (with_alpha color 220) (Z.max 1 (int_scaled 3 size)) ].

Definition tiles (size : Z) : list Call :=
  flat_map (fun '((tx, ty), color) => tile size color tx ty)
           (combine (tile_positions size) tile_colors).

(** Lines 106-109: the scanlines. *)
Definition scanlines (size : Z) : list Call :=
  if 128 <=? size then
    map (fun y => draw_line (0, y) (size, y) (RGBA 0 0 0 15) 1)
        (py_range size 4)
  else [].

(** Lines 111-127: the corner accents. *)
Definition accent_len (size : Z) : Z := int_scaled 30 size.
Definition accent_width (size : Z) : Z := Z.max 2 (int_scaled 4 size).

Definition corner_accents (size : Z) : list Call :=
  let padding := padding size in
  let corner_radius := corner_radius size in
  let accent_len := accent_len size in
  let accent_width := accent_width size in
  [ draw_line (padding, padding + corner_radius)
      (padding, padding + corner_radius + accent_len)
      (plain NEON_MAGENTA) accent_width;
    draw_line (padding + corner_radius, padding)
      (padding + corner_radius + accent_len, padding)
      (plain NEON_MAGENTA) accent_width;
    draw_line (size - padding, size - padding - corner_radius)
      (size - padding, size - padding - corner_radius - accent_len)
      (plain NEON_MAGENTA) accent_width;
    draw_line (size - padding - corner_radius, size - padding)
      (size - padding - corner_radius - accent_len, size - padding)
      (plain NEON_MAGENTA) accent_width ].

(** Everything [create_cyberpunk_icon(size)] asks of [draw], in order. *)
Definition icon_calls (size : Z) : list Call :=
  background_grid size ++ outer_glow size ++ main_border size
  ++ tiles size ++ scanlines size ++ corner_accents size.

Definition icon_cmds (size : Z) : list DrawCmd :=
  flat_map issue (icon_calls size).

(** ** Running draw calls on a canvas *)

Section Backend.

(** A Pillow backend: the canvas type, [Image.new('RGBA', (w, h), c)]
    and the effect of one draw call on a canvas. *)
Variable Canvas : Type.
Variable Image_new : Z -> Z -> color -> Canvas.
Variable render : DrawCmd -> Canvas -> Canvas.

Definition paint (cmds : list DrawCmd) (c : Canvas) : Canvas :=
  fold_left (fun acc cmd => render cmd acc) cmds c.

(** Images live in the interpreter's heap; an image object is a
    reference into it.  [Image.new] allocates, [ImageDraw.Draw(img)]
    keeps the reference and every draw call mutates the image it
    points to. *)
Definition new_image (w h : Z) (c : color) (heap : list Canvas)
    : nat * list Canvas :=
  (length heap, heap ++ [Image_new w h c]).

Definition draw_on (img : nat) (cmd : DrawCmd) (heap : list Canvas)
    : list Canvas :=
  match heap !! img with
  | Some c => <[img := render cmd c]> heap
  | None => heap
  end.

(** [create_cyberpunk_icon(size)]: returns the reference of the new
    image and the heap after the drawing. *)
Definition create_cyberpunk_icon (size : Z) (heap : list Canvas)
    : nat * list Canvas :=
  let '(img, heap) := new_image size size (plain DARK_BG) heap in
  (img, fold_left (fun h cmd => draw_on img cmd h) (icon_cmds size) heap).

End Backend.

Arguments paint {Canvas} render cmds c.
Arguments new_image {Canvas} Image_new w h c heap.
Arguments draw_on {Canvas} render img cmd heap.
Arguments create_cyberpunk_icon {Canvas} Image_new render size heap.

(** ** Pixels: what a fill stores *)

Module Raster.

(** An RGBA pixel, channels in 0..255. *)
Definition pixel : Type := (Z * Z * Z * Z)%type.

(** Pillow's ink for an RGBA image: a three-channel tuple is opaque. *)
Definition ink (c : color) : pixel :=
  match c with
  | RGB r g b => (r, g, b, 255)
  | RGBA r g b a => (r, g, b, a)
  end.

Record image : Type := {
  width : Z;
  height : Z;
  px : Z -> Z -> pixel
}.

(** [Image.new('RGBA', (w, h), c)]. *)
Definition new (w h : Z) (c : color) : image :=
  {| width := w; height := h; px := fun _ _ => ink c |}.

Definition in_image (img : image) (x y : Z) : bool :=
  (0 <=? x) && (x <? width img) && (0 <=? y) && (y <? height img).

(** [draw.rectangle]: the box includes both of its corners. *)
Definition in_box (b : box) (x y : Z) : bool :=
  let '(x0, y0, x1, y1) := b in
  (x0 <=? x) && (x <=? x1) && (y0 <=? y) && (y <=? y1).

(** [draw.ellipse] draws inside its bounding box; which grid points of
    the box it takes near the curve is decided by Pillow's rasteriser,
    which is not part of the script.  A rasteriser is any such decision;
    everything below holds for each of them. *)
Definition rasteriser : Type := box -> Z -> Z -> bool.


(** The interior colour of a call, and the grid points of its interior.
    Strokes (lines, arcs, outlines) have no interior. *)
Definition fill_of (cmd : DrawCmd) : option color :=
  match cmd with
  | Rectangle _ fill _ _ => fill
  | Ellipse _ fill _ _ => fill
  | _ => None
  end.

Definition fill_region (E : rasteriser) (cmd : DrawCmd) (x y : Z) : bool :=
  match cmd with
  | Rectangle b (Some _) _ _ => in_box b x y
  | Ellipse b (Some _) _ _ => in_box b x y && E b x y
  | _ => false
  end.

(** The script draws with [ImageDraw.Draw(img)] on an image of mode
    RGBA.  Pillow blends only when the draw mode is RGBA and the image
    mode is RGB; here both are RGBA, so the ink is written into the
    pixel as it is, all four channels. *)
Definition store (p : pixel) (region : Z -> Z -> bool) (img : image)
    : image :=
  {| width := width img;
     height := height img;
     px := fun x y =>
             if in_image img x y && region x y then p else px img x y |}.

(** The effect of the interior of one call. *)
Definition render_fill (E : rasteriser) (cmd : DrawCmd) (img : image)
    : image :=
  match fill_of cmd with
  | Some c => store (ink c) (fill_region E cmd) img
  | None => img
  end.



(** Whether some call has the grid point in its interior. *)
Definition painted (E : rasteriser) (cmds : list DrawCmd) (x y : Z) : bool :=
  existsb (fun cmd => fill_region E cmd x y) cmds.

(** The part of the fill that is made of rectangles, for corners in any
    order: the whole rectangle when the clamped radius is not positive,
    the vertical and the horizontal band otherwise. *)
Definition band_area (x1 y1 x2 y2 radius : Z) (x y : Z) : bool :=
  let X1 := Z.min x1 x2 in
  let Y1 := Z.min y1 y2 in
  let X2 := Z.max x1 x2 in
  let Y2 := Z.max y1 y2 in
  let r := clamped_radius X1 Y1 X2 Y2 radius in
  if r <=? 0 then in_box (X1, Y1, X2, Y2) x y
  else in_box (X1 + r, Y1, X2 - r, Y2) x y
       || in_box (X1, Y1 + r, X2, Y2 - r) x y.

(** The composite the specification speaks of: source over
    destination on 8-bit channels. *)
Definition alpha_over (s d : pixel) : pixel :=
  let '(sr, sg, sb, sa) := s in
  let '(dr, dg, db, da) := d in
  let oa := sa + da * (255 - sa) / 255 in
  let ch (cs cd : Z) :=
    if oa =? 0 then 0
    else (cs * sa + cd * da * (255 - sa) / 255) / oa in
  (ch sr dr, ch sg dg, ch sb db, oa).

End Raster.

(** ** The manifest *)

Definition SIZES : list (Z * string * string) :=
  [ (16, "1x", "icon_16x16.png");
    (32, "2x", "icon_16x16@2x.png");
    (32, "1x", "icon_32x32.png");
    (64, "2x", "icon_32x32@2x.png");
    (128, "1x", "icon_128x128.png");
    (256, "2x", "icon_128x128@2x.png");
    (256, "1x", "icon_256x256.png");
    (512, "2x", "icon_256x256@2x.png");
    (512, "1x", "icon_512x512.png");
    (1024, "2x", "icon_512x512@2x.png") ]%string.

Module Manifest.

Record entry : Type := {
  filename : string;
  idiom : string;
  scale : string;
  size : string
}.

Record info_t : Type := {
  author : string;
  version : Z
}.

Record contents : Type := {
  images : list entry;
  info : info_t
}.

(** The decimal text of an integer, as an f-string prints it. *)
Definition str (n : Z) : string := NilZero.string_of_int (Z.to_int n).

Definition generate_contents_json : contents :=
  {| images :=
       map (fun '(size, scale, filename) =>
              let base_size :=
                if String.eqb scale "1x" then size else size / 2 in
              {| filename := filename;
                 idiom := "mac";
                 scale := scale;
                 size := str base_size ++ "x" ++ str base_size |})
           SIZES;
     info := {| author := "xcode"; version := 1 |} |}%string.

(** The entry the specification describes for a table row: the logical
    size is the pixel size, halved when the scale tag is "2x". *)
Definition spec_entry (row : Z * string * string) : entry :=
  let '(pixelSize, scaleTag, fileName) := row in
  let w := if String.eqb scaleTag "2x" then pixelSize / 2 else pixelSize in
  {| filename := fileName;
     idiom := "mac";
     scale := scaleTag;
     size := str w ++ "x" ++ str w |}%string.

End Manifest.

(** ** Bounds checks on what is drawn *)

(** The rectangle handed to a primitive is a proper rectangle inside the
    square [0, s] x [0, s]. *)
Definition rect_within (s : Z) (c : Call) : bool :=
  match call_rect c with
  | Some (x1, y1, x2, y2) =>
      (0 <=? x1) && (x1 <? x2) && (x2 <=? s)
      && (0 <=? y1) && (y1 <? y2) && (y2 <=? s)
  | None => false
  end.

(** Every coordinate of a draw call lies in [0, s]. *)
Definition coords_within (s : Z) (cmd : DrawCmd) : bool :=
  forallb (fun v => (0 <=? v) && (v <=? s)) (cmd_coords cmd).

(** ** Shape of the issued calls *)

(** A bounding box whose second corner is not left of or above the
    first, as Pillow asks of [rectangle], [ellipse] and [arc]. *)
Definition box_ordered (b : box) : bool :=
  let '(x0, y0, x1, y1) := b in (x0 <=? x1) && (y0 <=? y1).

(** Boxes are ordered, line segments run rightwards or downwards. *)
Definition cmd_ordered (c : DrawCmd) : bool :=
  match c with
  | Line (px, py) (qx, qy) _ _ => (px <=? qx) && (py <=? qy)
  | Rectangle b _ _ _ => box_ordered b
  | Arc b _ _ _ _ => box_ordered b
  | Ellipse b _ _ _ => box_ordered b
  end.

(** The points a call mentions: the two ends of a segment, the two
    corners of a bounding box. *)
Definition cmd_points (c : DrawCmd) : list point :=
  match c with
  | Line p q _ _ => [p; q]
  | Rectangle (x0, y0, x1, y1) _ _ _ => [(x0, y0); (x1, y1)]
  | Arc (x0, y0, x1, y1) _ _ _ _ => [(x0, y0); (x1, y1)]
  | Ellipse (x0, y0, x1, y1) _ _ _ => [(x0, y0); (x1, y1)]
  end.

Definition point_in (b : box) (p : point) : bool :=
  let '(x0, y0, x1, y1) := b in
  let '(x, y) := p in
  (x0 <=? x) && (x <=? x1) && (y0 <=? y) && (y <=? y1).

Definition cmd_inside (b : box) (c : DrawCmd) : bool :=
  forallb (point_in b) (cmd_points c).

(** Pillow measures the angles of an arc from 3 o'clock, clockwise on
    the screen (y grows downwards).  The point of the ellipse inscribed
    in [b] at a multiple of 90 degrees. *)
Definition quarter_point (b : box) (angle : Z) : option point :=
  let '(x0, y0, x1, y1) := b in
  let cx := (x0 + x1) / 2 in
  let cy := (y0 + y1) / 2 in
  match angle mod 360 with
  | 0 => Some (x1, cy)
  | 90 => Some (cx, y1)
  | 180 => Some (x0, cy)
  | 270 => Some (cx, y0)
  | _ => None
  end.

(** Where a stroke starts and where it ends. *)
Definition cmd_ends (c : DrawCmd) : option (point * point) :=
  match c with
  | Line p q _ _ => Some (p, q)
  | Arc b start stop _ _ =>
      match quarter_point b start, quarter_point b stop with
      | Some p, Some q => Some (p, q)
      | _, _ => None
      end
  | _ => None
  end.

(** The radius a primitive call asks for, and whether the clamp leaves
    it as it is. *)
Definition call_radius (c : Call) : option Z :=
  match c with
  | draw_line _ _ _ _ => None
  | call_rounded_rect _ _ _ _ radius _ _ => Some radius
  | call_filled_rounded_rect _ _ _ _ radius _ => Some radius
  end.

Definition radius_unclamped (c : Call) : bool :=
  match call_rect c, call_radius c with
  | Some (x1, y1, x2, y2), Some radius =>
      (x1 <=? x2) && (y1 <=? y2) && (radius <=? max_radius x1 y1 x2 y2)
  | _, _ => true
  end.

(** A point lies on a horizontal or vertical segment drawn by
    [draw.line]. *)
Definition on_stroke (c : DrawCmd) (pt : point) : bool :=
  match c with
  | Line (px, py) (qx, qy) _ _ =>
      let '(x, y) := pt in
      ((px =? qx) || (py =? qy))
      && (Z.min px qx <=? x) && (x <=? Z.max px qx)
      && (Z.min py qy <=? y) && (y <=? Z.max py qy)
  | _ => false
  end.

(** Both ends of a line drawn by the routine lie on one stroke among
    [strokes]. *)
Definition lies_on (strokes : list DrawCmd) (c : Call) : bool :=
  match c with
  | draw_line p q _ _ =>
      existsb (fun s => on_stroke s p && on_stroke s q) strokes
  | _ => false
  end.

(** The two ends of a line the routine draws directly. *)
Definition line_ends (c : Call) : option (point * point) :=
  match c with
  | draw_line p q _ _ => Some (p, q)
  | _ => None
  end.

(** ** The script's entry point *)

Definition ICON_DIR : string := "tile_3/Assets.xcassets/AppIcon.appiconset".

(** [os.path.join(a, b)] for a relative [b] and an [a] without a
    trailing separator. *)
Definition path_join (a b : string) : string :=
  (a ++ "/" ++ b)%string.

Definition newline : string := String "010"%char EmptyString.

(** [print] ends what it writes with a line break: one printed string
    makes one line more than it has line breaks inside. *)
Fixpoint line_breaks (s : string) : nat :=
  match s with
  | EmptyString => 0%nat
  | String ch rest =>
      ((if Ascii.eqb ch "010"%char then 1 else 0) + line_breaks rest)%nat
  end.

Definition lines_printed (out : list string) : nat :=
  fold_right (fun s n => (S (line_breaks s) + n)%nat) 0%nat out.

(** The message [main] prints before it composes a row's icon. *)
Definition creating_line (row : Z * string * string) : string :=
  let '(size, scale, filename) := row in
  ("  Creating " ++ filename ++ " (" ++ Manifest.str size
   ++ "x" ++ Manifest.str size ++ "px)...")%string.

Section Script.

Variable Canvas : Type.
Variable Image_new : Z -> Z -> color -> Canvas.
Variable render : DrawCmd -> Canvas -> Canvas.

(** What a file holds: an image saved as PNG, or the manifest dumped as
    JSON (the structured value; the text layout is [json.dump]'s). *)
Inductive FileData : Type :=
| PNG (image : Canvas)
| JSON (contents : Manifest.contents).

(** The state [main] works on: the images in memory, the files, and the
    lines printed.  Directory creation and I/O failures are left out: the
    file system accepts every write. *)
Record World : Type := {
  heap : list Canvas;
  files : gmap string FileData;
  stdout : list string
}.

Definition print (line : string) (w : World) : World :=
  {| heap := heap w; files := files w; stdout := stdout w ++ [line] |}.

(** [icon.save(path, "PNG")]. *)
Definition save (icon : nat) (path : string) (w : World) : World :=
  match heap w !! icon with
  | Some c =>
      {| heap := heap w; files := <[path := PNG c]> (files w);
         stdout := stdout w |}
  | None => w
  end.

(** The body of the loop of [main] over the size table. *)
Definition generate_row (w : World) (row : Z * string * string) : World :=
  let '(size, scale, filename) := row in
  let w := print (creating_line (size, scale, filename)) w in
  let '(icon, heap') := create_cyberpunk_icon Image_new render size (heap w) in
  save icon (path_join ICON_DIR filename)
    {| heap := heap'; files := files w; stdout := stdout w |}.

Definition generate_rows (rows : list (Z * string * string)) (w : World)
    : World :=
  fold_left generate_row rows w.

Definition main (w : World) : World :=
  let w := print "Generating Tron/Cyberpunk app icons..." w in
  let w := generate_rows SIZES w in
  let contents := Manifest.generate_contents_json in
  let w := {| heap := heap w;
              files := <[path_join ICON_DIR "Contents.json" := JSON contents]>
                         (files w);
              stdout := stdout w |} in
  let w := print (newline ++ "Done! Icons saved to " ++ ICON_DIR ++ "/")%string
                 w in
  print "Rebuild your Xcode project to see the new icons." w.

End Script.

Arguments PNG {Canvas} image.
Arguments JSON {Canvas} contents.
Arguments heap {Canvas} w.
Arguments files {Canvas} w.
Arguments stdout {Canvas} w.
Arguments print {Canvas} line w.
Arguments save {Canvas} icon path w.
Arguments generate_row {Canvas} Image_new render w row.
Arguments generate_rows {Canvas} Image_new render rows w.
Arguments main {Canvas} Image_new render w.

(** * Properties *)

(** ** Manifest *)

(** C1: the manifest builder returns one entry per row of the size
    table, in table order; each entry carries the row's filename, the
    idiom "mac", the row's scale tag and the size string "WxW" with W the
    pixel size halved for "2x" and unchanged for "1x"; the "2x" row of
    pixel size 32 yields "16x16", the "1x" row of pixel size 512 yields
    "512x512"; the info object has author "xcode" and version 1. *)
Theorem manifest_entries_follow_table :
  Manifest.images Manifest.generate_contents_json
    = map Manifest.spec_entry SIZES
  /\ length (Manifest.images Manifest.generate_contents_json) = length SIZES
  /\ length SIZES = 10%nat
  /\ Forall (fun row => snd (fst row) = "1x" \/ snd (fst row) = "2x")%string
            SIZES
  /\ Manifest.images Manifest.generate_contents_json !! 1%nat
       = Some {| Manifest.filename := "icon_16x16@2x.png";
                 Manifest.idiom := "mac";
                 Manifest.scale := "2x";
                 Manifest.size := "16x16" |}
  /\ Manifest.images Manifest.generate_contents_json !! 8%nat
       = Some {| Manifest.filename := "icon_512x512.png";
                 Manifest.idiom := "mac";
                 Manifest.scale := "1x";
                 Manifest.size := "512x512" |}
  /\ Manifest.info Manifest.generate_contents_json
       = {| Manifest.author := "xcode"; Manifest.version := 1 |}.
Proof.
  repeat split; try reflexivity.
  unfold SIZES. repeat (constructor 2; [simpl; auto |]). constructor 1.
Qed.

(** ** The primitives on normalized corners *)

Lemma draw_rounded_rect_normalized x1 y1 x2 y2 radius c w :
  x1 <= x2 -> y1 <= y2 ->
  draw_rounded_rect x1 y1 x2 y2 radius c w =
    let r := clamped_radius x1 y1 x2 y2 radius in
    if r <=? 0 then [Rectangle (x1, y1, x2, y2) None (Some c) w]
    else
      [ Line (x1 + r, y1) (x2 - r, y1) c w;
        Line (x1 + r, y2) (x2 - r, y2) c w;
        Line (x1, y1 + r) (x1, y2 - r) c w;
        Line (x2, y1 + r) (x2, y2 - r) c w;
        Arc (x1, y1, x1 + r * 2, y1 + r * 2) 180 270 c w;
        Arc (x2 - r * 2, y1, x2, y1 + r * 2) 270 360 c w;
        Arc (x1, y2 - r * 2, x1 + r * 2, y2) 90 180 c w;
        Arc (x2 - r * 2, y2 - r * 2, x2, y2) 0 90 c w ].
Proof.
  intros Hx Hy. unfold draw_rounded_rect, clamped_radius, max_radius.
  apply Z.ltb_ge in Hx, Hy. rewrite Hx, Hy. reflexivity.
Qed.

Lemma draw_filled_rounded_rect_normalized x1 y1 x2 y2 radius c :
  x1 <= x2 -> y1 <= y2 ->
  draw_filled_rounded_rect x1 y1 x2 y2 radius c =
    let r := clamped_radius x1 y1 x2 y2 radius in
    if r <=? 0 then [Rectangle (x1, y1, x2, y2) (Some c) None 1]
    else
      [ Rectangle (x1 + r, y1, x2 - r, y2) (Some c) None 1;
        Rectangle (x1, y1 + r, x2, y2 - r) (Some c) None 1;
        Ellipse (x1, y1, x1 + r * 2, y1 + r * 2) (Some c) None 1;
        Ellipse (x2 - r * 2, y1, x2, y1 + r * 2) (Some c) None 1;
        Ellipse (x1, y2 - r * 2, x1 + r * 2, y2) (Some c) None 1;
        Ellipse (x2 - r * 2, y2 - r * 2, x2, y2) (Some c) None 1 ].
Proof.
  intros Hx Hy. unfold draw_filled_rounded_rect, clamped_radius, max_radius.
  apply Z.ltb_ge in Hx, Hy. rewrite Hx, Hy. reflexivity.
Qed.

(** Replaces the minimum and the maximum of two coordinates whose order
    is known from the context. *)
Ltac sort_corners a b :=
  first
    [ replace (Z.min a b) with a by lia; replace (Z.max a b) with b by lia
    | replace (Z.min a b) with b by lia; replace (Z.max a b) with a by lia ].

(** Whatever the order of the corners, the primitives work on the
    sorted ones. *)
Lemma draw_rounded_rect_sorts x1 y1 x2 y2 radius c w :
  draw_rounded_rect x1 y1 x2 y2 radius c w =
  draw_rounded_rect (Z.min x1 x2) (Z.min y1 y2) (Z.max x1 x2) (Z.max y1 y2)
    radius c w.
Proof.
  unfold draw_rounded_rect.
  assert (Hx : (Z.max x1 x2 <? Z.min x1 x2) = false)
    by (apply Z.ltb_ge; lia).
  assert (Hy : (Z.max y1 y2 <? Z.min y1 y2) = false)
    by (apply Z.ltb_ge; lia).
  rewrite Hx, Hy. clear Hx Hy.
  destruct (Z.ltb_spec x2 x1), (Z.ltb_spec y2 y1);
    sort_corners x1 x2; sort_corners y1 y2; reflexivity.
Qed.

Lemma draw_filled_rounded_rect_sorts x1 y1 x2 y2 radius c :
  draw_filled_rounded_rect x1 y1 x2 y2 radius c =
  draw_filled_rounded_rect (Z.min x1 x2) (Z.min y1 y2)
    (Z.max x1 x2) (Z.max y1 y2) radius c.
Proof.
  unfold draw_filled_rounded_rect.
  assert (Hx : (Z.max x1 x2 <? Z.min x1 x2) = false)
    by (apply Z.ltb_ge; lia).
  assert (Hy : (Z.max y1 y2 <? Z.min y1 y2) = false)
    by (apply Z.ltb_ge; lia).
  rewrite Hx, Hy. clear Hx Hy.
  destruct (Z.ltb_spec x2 x1), (Z.ltb_spec y2 y1);
    sort_corners x1 x2; sort_corners y1 y2; reflexivity.
Qed.

Lemma clamped_radius_le_max x1 y1 x2 y2 radius :
  clamped_radius x1 y1 x2 y2 radius <= max_radius x1 y1 x2 y2.
Proof. unfold clamped_radius. lia. Qed.

Lemma max_radius_half_sides x1 y1 x2 y2 :
  2 * max_radius x1 y1 x2 y2 <= x2 - x1
  /\ 2 * max_radius x1 y1 x2 y2 <= y2 - y1.
Proof.
  unfold max_radius.
  pose proof (Z.mul_div_le (x2 - x1) 2 ltac:(lia)).
  pose proof (Z.mul_div_le (y2 - y1) 2 ltac:(lia)).
  lia.
Qed.

Lemma clamped_radius_idempotent x1 y1 x2 y2 radius :
  clamped_radius x1 y1 x2 y2 (clamped_radius x1 y1 x2 y2 radius)
  = clamped_radius x1 y1 x2 y2 radius.
Proof. unfold clamped_radius. lia. Qed.

(** ** Clamping, degenerate radii and corner order *)

(** C2: on normalized corners, a requested radius of at least half the
    shorter side (Python's [//], so the rounded-down half) makes both
    primitives issue exactly the calls they issue for that half, hence the
    same canvas on every backend; the radius in use never exceeds half of
    either side, and clamping twice is clamping once. *)
Theorem radius_clamped_to_half_shorter_side
    (x1 y1 x2 y2 radius : Z) (c : color) (w : Z) :
  x1 <= x2 -> y1 <= y2 ->
  max_radius x1 y1 x2 y2 <= radius ->
  draw_rounded_rect x1 y1 x2 y2 radius c w
    = draw_rounded_rect x1 y1 x2 y2 (max_radius x1 y1 x2 y2) c w
  /\ draw_filled_rounded_rect x1 y1 x2 y2 radius c
    = draw_filled_rounded_rect x1 y1 x2 y2 (max_radius x1 y1 x2 y2) c
  /\ (forall (Canvas : Type) (render : DrawCmd -> Canvas -> Canvas) canvas,
        paint render (draw_rounded_rect x1 y1 x2 y2 radius c w) canvas
        = paint render
            (draw_rounded_rect x1 y1 x2 y2 (max_radius x1 y1 x2 y2) c w)
            canvas
        /\ paint render (draw_filled_rounded_rect x1 y1 x2 y2 radius c) canvas
        = paint render
            (draw_filled_rounded_rect x1 y1 x2 y2 (max_radius x1 y1 x2 y2) c)
            canvas)
  /\ clamped_radius x1 y1 x2 y2 radius = max_radius x1 y1 x2 y2
  /\ 2 * clamped_radius x1 y1 x2 y2 radius <= x2 - x1
  /\ 2 * clamped_radius x1 y1 x2 y2 radius <= y2 - y1
  /\ clamped_radius x1 y1 x2 y2 (clamped_radius x1 y1 x2 y2 radius)
     = clamped_radius x1 y1 x2 y2 radius.
Proof.
  intros Hx Hy Hr.
  assert (Hc : clamped_radius x1 y1 x2 y2 radius = max_radius x1 y1 x2 y2)
    by (unfold clamped_radius; lia).
  assert (Hm : clamped_radius x1 y1 x2 y2 (max_radius x1 y1 x2 y2)
               = max_radius x1 y1 x2 y2)
    by (unfold clamped_radius; lia).
  assert (Ho : draw_rounded_rect x1 y1 x2 y2 radius c w
               = draw_rounded_rect x1 y1 x2 y2 (max_radius x1 y1 x2 y2) c w).
  { rewrite !draw_rounded_rect_normalized by assumption.
    cbv zeta. rewrite Hc, Hm. reflexivity. }
  assert (Hf : draw_filled_rounded_rect x1 y1 x2 y2 radius c
               = draw_filled_rounded_rect x1 y1 x2 y2
                   (max_radius x1 y1 x2 y2) c).
  { rewrite !draw_filled_rounded_rect_normalized by assumption.
    cbv zeta. rewrite Hc, Hm. reflexivity. }
  pose proof (max_radius_half_sides x1 y1 x2 y2) as [Hsx Hsy].
  repeat split; try assumption.
  - rewrite Ho. reflexivity.
  - rewrite Hf. reflexivity.
  - rewrite Hc. exact Hsx.
  - rewrite Hc. exact Hsy.
  - apply clamped_radius_idempotent.
Qed.

Lemma radius_clamped_to_half_shorter_side_witness :
  draw_rounded_rect 0 0 10 6 80 (RGB 0 255 255) 2
    = draw_rounded_rect 0 0 10 6 3 (RGB 0 255 255) 2
  /\ draw_filled_rounded_rect 0 0 10 6 80 (RGB 0 255 255)
    = draw_filled_rounded_rect 0 0 10 6 3 (RGB 0 255 255).
Proof.
  pose proof (radius_clamped_to_half_shorter_side 0 0 10 6 80
                (RGB 0 255 255) 2 ltac:(lia) ltac:(lia)
                ltac:(vm_compute; discriminate)) as H.
  split; [exact (proj1 H) | exact (proj1 (proj2 H))].
Defined.

(** C3: when the clamped radius is at most 0, the outline primitive
    issues one call, a plain rectangle outline with the given colour and
    stroke width, and the fill primitive issues one call, a plain filled
    rectangle with the given colour; no line, arc or ellipse is drawn. *)
Theorem nonpositive_radius_falls_back_to_rectangle
    (x1 y1 x2 y2 radius : Z) (c : color) (w : Z) :
  clamped_radius (Z.min x1 x2) (Z.min y1 y2) (Z.max x1 x2) (Z.max y1 y2)
    radius <= 0 ->
  draw_rounded_rect x1 y1 x2 y2 radius c w
    = [Rectangle (Z.min x1 x2, Z.min y1 y2, Z.max x1 x2, Z.max y1 y2)
         None (Some c) w]
  /\ draw_filled_rounded_rect x1 y1 x2 y2 radius c
    = [Rectangle (Z.min x1 x2, Z.min y1 y2, Z.max x1 x2, Z.max y1 y2)
         (Some c) None 1]
  /\ forallb is_rectangle (draw_rounded_rect x1 y1 x2 y2 radius c w) = true
  /\ forallb is_rectangle (draw_filled_rounded_rect x1 y1 x2 y2 radius c)
     = true
  /\ (forall (Canvas : Type) (render : DrawCmd -> Canvas -> Canvas) canvas,
        paint render (draw_rounded_rect x1 y1 x2 y2 radius c w) canvas
        = render (Rectangle (Z.min x1 x2, Z.min y1 y2,
                             Z.max x1 x2, Z.max y1 y2) None (Some c) w)
            canvas
        /\ paint render (draw_filled_rounded_rect x1 y1 x2 y2 radius c) canvas
        = render (Rectangle (Z.min x1 x2, Z.min y1 y2,
                             Z.max x1 x2, Z.max y1 y2) (Some c) None 1)
            canvas).
Proof.
  intros Hr. apply Z.leb_le in Hr.
  assert (Ho : draw_rounded_rect x1 y1 x2 y2 radius c w
    = [Rectangle (Z.min x1 x2, Z.min y1 y2, Z.max x1 x2, Z.max y1 y2)
         None (Some c) w]).
  { rewrite draw_rounded_rect_sorts, draw_rounded_rect_normalized by lia.
    cbv zeta. rewrite Hr. reflexivity. }
  assert (Hf : draw_filled_rounded_rect x1 y1 x2 y2 radius c
    = [Rectangle (Z.min x1 x2, Z.min y1 y2, Z.max x1 x2, Z.max y1 y2)
         (Some c) None 1]).
  { rewrite draw_filled_rounded_rect_sorts,
      draw_filled_rounded_rect_normalized by lia.
    cbv zeta. rewrite Hr. reflexivity. }
  rewrite Ho, Hf. repeat split; reflexivity.
Qed.

Lemma nonpositive_radius_falls_back_to_rectangle_witness :
  draw_rounded_rect 3 3 8 8 0 (RGBA 0 255 255 220) 1
    = [Rectangle (3, 3, 8, 8) None (Some (RGBA 0 255 255 220)) 1]
  /\ draw_filled_rounded_rect 3 3 8 8 0 (RGBA 0 255 255 40)
    = [Rectangle (3, 3, 8, 8) (Some (RGBA 0 255 255 40)) None 1].
Proof.
  split.
  - exact (proj1 (nonpositive_radius_falls_back_to_rectangle 3 3 8 8 0
                    (RGBA 0 255 255 220) 1
                    ltac:(vm_compute; discriminate))).
  - exact (proj1 (proj2 (nonpositive_radius_falls_back_to_rectangle 3 3 8 8 0
                    (RGBA 0 255 255 40) 1
                    ltac:(vm_compute; discriminate)))).
Defined.

(** C6: the two corners may be given in any order.  Exchanging the two
    points, only their x coordinates or only their y coordinates leaves
    the calls of both primitives unchanged: they are the calls for the
    top-left and bottom-right corners, so the canvas is the same on every
    backend. *)
Theorem corner_order_is_normalized
    (x1 y1 x2 y2 radius : Z) (c : color) (w : Z) :
  let outline :=
    draw_rounded_rect (Z.min x1 x2) (Z.min y1 y2) (Z.max x1 x2) (Z.max y1 y2)
      radius c w in
  let filled :=
    draw_filled_rounded_rect (Z.min x1 x2) (Z.min y1 y2)
      (Z.max x1 x2) (Z.max y1 y2) radius c in
  (draw_rounded_rect x1 y1 x2 y2 radius c w = outline
   /\ draw_rounded_rect x2 y2 x1 y1 radius c w = outline
   /\ draw_rounded_rect x2 y1 x1 y2 radius c w = outline
   /\ draw_rounded_rect x1 y2 x2 y1 radius c w = outline)
  /\ (draw_filled_rounded_rect x1 y1 x2 y2 radius c = filled
      /\ draw_filled_rounded_rect x2 y2 x1 y1 radius c = filled
      /\ draw_filled_rounded_rect x2 y1 x1 y2 radius c = filled
      /\ draw_filled_rounded_rect x1 y2 x2 y1 radius c = filled)
  /\ (forall (Canvas : Type) (render : DrawCmd -> Canvas -> Canvas) canvas,
        (paint render (draw_rounded_rect x2 y2 x1 y1 radius c w) canvas
           = paint render outline canvas
         /\ paint render (draw_rounded_rect x2 y1 x1 y2 radius c w) canvas
           = paint render outline canvas
         /\ paint render (draw_rounded_rect x1 y2 x2 y1 radius c w) canvas
           = paint render outline canvas)
        /\ (paint render (draw_filled_rounded_rect x2 y2 x1 y1 radius c) canvas
              = paint render filled canvas
            /\ paint render (draw_filled_rounded_rect x2 y1 x1 y2 radius c)
                 canvas
              = paint render filled canvas
            /\ paint render (draw_filled_rounded_rect x1 y2 x2 y1 radius c)
                 canvas
              = paint render filled canvas)).
Proof.
  intros outline filled. subst outline filled.
  assert (Ho : forall a b a' b',
    draw_rounded_rect a b a' b' radius c w
    = draw_rounded_rect (Z.min x1 x2) (Z.min y1 y2)
        (Z.max x1 x2) (Z.max y1 y2) radius c w
    \/ ~ (Z.min a a' = Z.min x1 x2 /\ Z.max a a' = Z.max x1 x2
          /\ Z.min b b' = Z.min y1 y2 /\ Z.max b b' = Z.max y1 y2)).
  { intros a b a' b'.
    destruct (Z.eq_dec (Z.min a a') (Z.min x1 x2)) as [E1|]; [|right; tauto].
    destruct (Z.eq_dec (Z.max a a') (Z.max x1 x2)) as [E2|]; [|right; tauto].
    destruct (Z.eq_dec (Z.min b b') (Z.min y1 y2)) as [E3|]; [|right; tauto].
    destruct (Z.eq_dec (Z.max b b') (Z.max y1 y2)) as [E4|]; [|right; tauto].
    left. rewrite draw_rounded_rect_sorts, E1, E2, E3, E4. reflexivity. }
  assert (Hf : forall a b a' b',
    draw_filled_rounded_rect a b a' b' radius c
    = draw_filled_rounded_rect (Z.min x1 x2) (Z.min y1 y2)
        (Z.max x1 x2) (Z.max y1 y2) radius c
    \/ ~ (Z.min a a' = Z.min x1 x2 /\ Z.max a a' = Z.max x1 x2
          /\ Z.min b b' = Z.min y1 y2 /\ Z.max b b' = Z.max y1 y2)).
  { intros a b a' b'.
    destruct (Z.eq_dec (Z.min a a') (Z.min x1 x2)) as [E1|]; [|right; tauto].
    destruct (Z.eq_dec (Z.max a a') (Z.max x1 x2)) as [E2|]; [|right; tauto].
    destruct (Z.eq_dec (Z.min b b') (Z.min y1 y2)) as [E3|]; [|right; tauto].
    destruct (Z.eq_dec (Z.max b b') (Z.max y1 y2)) as [E4|]; [|right; tauto].
    left. rewrite draw_filled_rounded_rect_sorts, E1, E2, E3, E4.
    reflexivity. }
  assert (O1 := Ho x1 y1 x2 y2). assert (O2 := Ho x2 y2 x1 y1).
  assert (O3 := Ho x2 y1 x1 y2). assert (O4 := Ho x1 y2 x2 y1).
  assert (F1 := Hf x1 y1 x2 y2). assert (F2 := Hf x2 y2 x1 y1).
  assert (F3 := Hf x2 y1 x1 y2). assert (F4 := Hf x1 y2 x2 y1).
  clear Ho Hf.
  destruct O1 as [O1|N]; [|exfalso; apply N; lia].
  destruct O2 as [O2|N]; [|exfalso; apply N; lia].
  destruct O3 as [O3|N]; [|exfalso; apply N; lia].
  destruct O4 as [O4|N]; [|exfalso; apply N; lia].
  destruct F1 as [F1|N]; [|exfalso; apply N; lia].
  destruct F2 as [F2|N]; [|exfalso; apply N; lia].
  destruct F3 as [F3|N]; [|exfalso; apply N; lia].
  destruct F4 as [F4|N]; [|exfalso; apply N; lia].
  rewrite O1, O2, O3, O4, F1, F2, F3, F4.
  repeat split; reflexivity.
Qed.

(** ** Ranges and scaled constants *)

Lemma in_py_range (stop step y : Z) :
  0 < step ->
  In y (py_range stop step) <-> 0 <= y < stop /\ y mod step = 0.
Proof.
  intros Hstep. unfold py_range. rewrite in_map_iff.
  pose proof (Z.div_mod (stop + step - 1) step ltac:(lia)) as Hdm.
  pose proof (Z.mod_pos_bound (stop + step - 1) step Hstep) as Hr.
  set (q := (stop + step - 1) / step) in *.
  split.
  - intros (i & <- & Hi). apply in_seq in Hi.
    assert (Z.of_nat i < q) by lia.
    split; [nia | apply Z.mod_mul; lia].
  - intros [Hy Hm].
    apply Z.mod_divide in Hm; [|lia]. destruct Hm as [k ->].
    assert (0 <= k) by nia.
    exists (Z.to_nat k). split; [lia|].
    apply in_seq. assert (k < q) by nia. lia.
Qed.

Lemma py_range_nonempty (stop step : Z) :
  0 < step -> 0 < stop -> py_range stop step <> [].
Proof.
  intros Hstep Hstop Hnil.
  assert (Hin : In 0 (py_range stop step))
    by (apply in_py_range; [assumption | split; [lia | apply Z.mod_0_l; lia]]).
  rewrite Hnil in Hin. exact Hin.
Qed.

Lemma py_range_empty (stop step : Z) :
  0 < step -> stop <= 0 -> py_range stop step = [].
Proof.
  intros Hstep Hstop. destruct (py_range stop step) as [|y l] eqn:E.
  - reflexivity.
  - assert (Hin : In y (py_range stop step)) by (rewrite E; left; reflexivity).
    apply in_py_range in Hin; [lia | assumption].
Qed.

(** A positive scaled constant comes from a positive product. *)
Lemma int_scaled_pos (k size : Z) : 0 < int_scaled k size -> 0 < k * size.
Proof.
  unfold int_scaled. intros H.
  destruct (Z_lt_le_dec 0 (k * size)) as [|Hle]; [assumption|].
  exfalso.
  replace (k * size) with (- (- (k * size))) in H by lia.
  rewrite Z.quot_opp_l in H by lia.
  pose proof (Z.quot_pos (- (k * size)) 512 ltac:(lia) ltac:(lia)). lia.
Qed.


(** [Forall] from a boolean check. *)
Lemma Forall_of_forallb {A : Type} (p : A -> bool) (P : A -> Prop)
    (l : list A) :
  (forall x, p x = true -> P x) -> forallb p l = true -> Forall P l.
Proof.
  intros Hp. induction l as [|x l IH]; simpl; intros H.
  - constructor 1.
  - apply andb_prop in H as [Hx Hl]. constructor 2; auto.
Qed.

(** ** The passes of the composition routine *)

(** C7: the background grid (vertical then horizontal lines of colour
    GRID_COLOR with alpha 40, at spacing [int(32 * size / 512)]) is drawn
    exactly when that spacing exceeds 2; no grid for the table sizes 16
    and 32, a grid for every table size from 64 on. *)
Theorem background_grid_iff_spacing_above_two (size : Z) :
  grid_spacing size = Z.quot (32 * size) 512
  /\ (background_grid size <> [] <-> 2 < grid_spacing size)
  /\ (forall c, In c (background_grid size) <->
        2 < grid_spacing size
        /\ exists t, 0 <= t < size /\ t mod grid_spacing size = 0
           /\ (c = draw_line (t, 0) (t, size) (RGBA 0 80 100 40)
                     (Z.max 1 (int_scaled 1 size))
               \/ c = draw_line (0, t) (size, t) (RGBA 0 80 100 40)
                        (Z.max 1 (int_scaled 1 size))))
  /\ background_grid 16 = []
  /\ background_grid 32 = []
  /\ Forall (fun row : Z * string * string =>
               64 <= fst (fst row) -> background_grid (fst (fst row)) <> [])
            SIZES.
Proof.
  split; [reflexivity|].
  assert (Hshape : forall c, In c (background_grid size) <->
        2 < grid_spacing size
        /\ exists t, 0 <= t < size /\ t mod grid_spacing size = 0
           /\ (c = draw_line (t, 0) (t, size) (RGBA 0 80 100 40)
                     (Z.max 1 (int_scaled 1 size))
               \/ c = draw_line (0, t) (size, t) (RGBA 0 80 100 40)
                        (Z.max 1 (int_scaled 1 size)))).
  { intros c. unfold background_grid.
    destruct (Z.ltb_spec 2 (grid_spacing size)) as [Hs|Hs].
    - rewrite in_app_iff, !in_map_iff. split.
      + intros [(t & <- & Ht)|(t & <- & Ht)];
          apply in_py_range in Ht; try lia;
          (split; [assumption|]); exists t; tauto.
      + intros (_ & t & Ht & Hm & [-> | ->]); [left|right];
          exists t; (split; [reflexivity|]); apply in_py_range;
          try lia; tauto.
    - simpl. split; [contradiction | lia]. }
  split; [|split; [exact Hshape|]].
  - split.
    + intros Hne. destruct (background_grid size) as [|c l] eqn:E;
        [contradiction|].
      apply (Hshape c). left. reflexivity.
    + intros Hs Hnil.
      assert (0 < size).
      { pose proof (int_scaled_pos 32 size) as Hp.
        unfold grid_spacing in Hs. lia. }
      assert (Hin : In (draw_line (0, 0) (0, size) (RGBA 0 80 100 40)
                          (Z.max 1 (int_scaled 1 size)))
                       (background_grid size)).
      { apply Hshape. split; [assumption|]. exists 0.
        split; [lia|]. split; [apply Z.mod_0_l; lia | left; reflexivity]. }
      rewrite Hnil in Hin. exact Hin.
  - split; [reflexivity|]. split; [reflexivity|].
    unfold SIZES.
    repeat (constructor 2;
            [simpl; intros Hge;
             first [exfalso; lia | vm_compute; discriminate] |]).
    constructor 1.
Qed.

(** C8: the scanlines, 1-pixel lines of colour (0,0,0,15) from (0,y) to
    (size,y) for the multiples y of 4 below size, are drawn exactly when
    size >= 128; below 128 the pass issues no call and leaves the canvas
    of every backend unchanged. *)
Theorem scanlines_iff_size_at_least_128 (size : Z) :
  (scanlines size <> [] <-> 128 <= size)
  /\ (forall c, In c (scanlines size) <->
        128 <= size
        /\ exists y, 0 <= y < size /\ y mod 4 = 0
           /\ c = draw_line (0, y) (size, y) (RGBA 0 0 0 15) 1)
  /\ (size < 128 ->
      scanlines size = []
      /\ forall (Canvas : Type) (render : DrawCmd -> Canvas -> Canvas) canvas,
           paint render (flat_map issue (scanlines size)) canvas = canvas).
Proof.
  assert (Hshape : forall c, In c (scanlines size) <->
        128 <= size
        /\ exists y, 0 <= y < size /\ y mod 4 = 0
           /\ c = draw_line (0, y) (size, y) (RGBA 0 0 0 15) 1).
  { intros c. unfold scanlines.
    destruct (Z.leb_spec 128 size) as [Hs|Hs].
    - rewrite in_map_iff. split.
      + intros (y & <- & Hy). apply in_py_range in Hy; [|lia].
        split; [assumption|]. exists y. tauto.
      + intros (_ & y & Hy & Hm & ->). exists y.
        split; [reflexivity|]. apply in_py_range; [lia | tauto].
    - simpl. split; [contradiction | lia]. }
  split; [|split; [exact Hshape|]].
  - split.
    + intros Hne. destruct (scanlines size) as [|c l] eqn:E; [contradiction|].
      apply (Hshape c). left. reflexivity.
    + intros Hs Hnil.
      assert (Hin : In (draw_line (0, 0) (size, 0) (RGBA 0 0 0 15) 1)
                       (scanlines size)).
      { apply Hshape. split; [assumption|]. exists 0.
        split; [lia|]. split; reflexivity. }
      rewrite Hnil in Hin. exact Hin.
  - intros Hs.
    assert (Hnil : scanlines size = []).
    { unfold scanlines. destruct (Z.leb_spec 128 size); [lia | reflexivity]. }
    split; [exact Hnil|]. intros Canvas render canvas.
    rewrite Hnil. reflexivity.
Qed.

(** ** Tile geometry on the size table *)

Lemma rect_within_sound (s : Z) (c : Call) :
  rect_within s c = true ->
  exists x1 y1 x2 y2,
    call_rect c = Some (x1, y1, x2, y2)
    /\ 0 <= x1 /\ x1 < x2 /\ x2 <= s /\ 0 <= y1 /\ y1 < y2 /\ y2 <= s.
Proof.
  unfold rect_within.
  destruct (call_rect c) as [[[[x1 y1] x2] y2]|]; [|discriminate].
  intros H. exists x1, y1, x2, y2.
  repeat (apply andb_prop in H as [H ?]).
  repeat split; lia.
Qed.

Lemma coords_within_sound (s : Z) (cmd : DrawCmd) :
  coords_within s cmd = true ->
  Forall (fun v => 0 <= v <= s) (cmd_coords cmd).
Proof.
  unfold coords_within. apply Forall_of_forallb.
  intros v H. apply andb_prop in H as [? ?]. lia.
Qed.

(** C10: for every size of the table (the smallest is 16) the cell size
    [((s - 2*int(100*s/512)) - int(16*s/512)) // 2] is positive, the
    sixteen rectangles handed to the primitives for the four cells (the
    glow outlines, pushed out by 1 and 2 pixels, included) are proper
    rectangles with all coordinates in [0, s], and so is every coordinate
    of every draw call they issue. *)
Theorem tile_cells_positive_and_in_bounds :
  Forall (fun row : Z * string * string =>
            let s := fst (fst row) in
            16 <= s
            /\ cell_size s
               = ((s - 2 * int_scaled 100 s) - int_scaled 16 s) / 2
            /\ 0 < cell_size s
            /\ length (tiles s) = 16%nat
            /\ Forall (fun call =>
                         exists x1 y1 x2 y2,
                           call_rect call = Some (x1, y1, x2, y2)
                           /\ 0 <= x1 /\ x1 < x2 /\ x2 <= s
                           /\ 0 <= y1 /\ y1 < y2 /\ y2 <= s)
                      (tiles s)
            /\ Forall (fun cmd => Forall (fun v => 0 <= v <= s)
                                         (cmd_coords cmd))
                      (flat_map issue (tiles s)))
         SIZES.
Proof.
  unfold SIZES.
  repeat (constructor 2;
    [ cbv zeta; cbn [fst];
      split; [lia|];
      split; [reflexivity|];
      split; [vm_compute; reflexivity|];
      split; [vm_compute; reflexivity|];
      split;
      [ match goal with
        | |- Forall _ (tiles ?s) =>
            apply (Forall_of_forallb (rect_within s));
            [ apply rect_within_sound | vm_compute; reflexivity ]
        end
      | match goal with
        | |- Forall _ (flat_map issue (tiles ?s)) =>
            apply (Forall_of_forallb (coords_within s));
            [ apply coords_within_sound | vm_compute; reflexivity ]
        end ]
    | ]).
  constructor 1.
Qed.

(** ** The composition routine and the heap *)

Section BackendFacts.

Context {Canvas : Type}.
Variable Image_new : Z -> Z -> color -> Canvas.
Variable render : DrawCmd -> Canvas -> Canvas.

Lemma paint_app (l1 l2 : list DrawCmd) (c : Canvas) :
  paint render (l1 ++ l2) c = paint render l2 (paint render l1 c).
Proof. unfold paint. apply fold_left_app. Qed.

Lemma draw_on_length (img : nat) (cmd : DrawCmd) (heap : list Canvas) :
  length (draw_on render img cmd heap) = length heap.
Proof.
  unfold draw_on. case_match; [apply length_insert | reflexivity].
Qed.

Lemma draw_on_lookup (img : nat) (cmd : DrawCmd) (heap : list Canvas)
    (c : Canvas) :
  heap !! img = Some c ->
  draw_on render img cmd heap !! img = Some (render cmd c).
Proof.
  intros H. unfold draw_on. rewrite H.
  apply list_lookup_insert_eq. eapply lookup_lt_Some, H.
Qed.

Lemma draw_on_other (img j : nat) (cmd : DrawCmd) (heap : list Canvas) :
  j <> img -> draw_on render img cmd heap !! j = heap !! j.
Proof.
  intros H. unfold draw_on. case_match; [|reflexivity].
  apply list_lookup_insert_ne. congruence.
Qed.

(** Drawing through a reference paints the image it points to... *)
Lemma fold_draw_on_lookup (img : nat) (cmds : list DrawCmd) :
  forall (heap : list Canvas) (c : Canvas),
    heap !! img = Some c ->
    fold_left (fun h cmd => draw_on render img cmd h) cmds heap !! img
    = Some (paint render cmds c).
Proof.
  induction cmds as [|cmd cmds IH]; intros heap c H; simpl.
  - exact H.
  - apply IH. apply draw_on_lookup, H.
Qed.

(** ... and no other image. *)
Lemma fold_draw_on_other (img j : nat) (cmds : list DrawCmd) :
  j <> img ->
  forall heap : list Canvas,
    fold_left (fun h cmd => draw_on render img cmd h) cmds heap !! j
    = heap !! j.
Proof.
  intros Hj. induction cmds as [|cmd cmds IH]; intros heap; simpl.
  - reflexivity.
  - rewrite IH. apply draw_on_other, Hj.
Qed.

Lemma create_cyberpunk_icon_result (size : Z) (heap : list Canvas) :
  let r := create_cyberpunk_icon Image_new render size heap in
  fst r = length heap
  /\ snd r !! fst r
     = Some (paint render (icon_cmds size)
               (Image_new size size (plain DARK_BG)))
  /\ forall j, (j < length heap)%nat -> snd r !! j = heap !! j.
Proof.
  unfold create_cyberpunk_icon, new_image. cbn [fst snd].
  split; [reflexivity|]. split.
  - apply fold_draw_on_lookup.
    rewrite lookup_app_r by lia.
    replace (length heap - length heap)%nat with 0%nat by lia.
    reflexivity.
  - intros j Hj. rewrite fold_draw_on_other by lia.
    apply lookup_app_l, Hj.
Qed.

End BackendFacts.

(** ** What the fill primitive stores *)

Section FillFacts.

Import Raster.





(** The six shapes of the rounded branch. *)
Let six_shapes (x1 y1 x2 y2 r : Z) (c : color) : list DrawCmd :=
  [ Rectangle (x1 + r, y1, x2 - r, y2) (Some c) None 1;
    Rectangle (x1, y1 + r, x2, y2 - r) (Some c) None 1;
    Ellipse (x1, y1, x1 + r * 2, y1 + r * 2) (Some c) None 1;
    Ellipse (x2 - r * 2, y1, x2, y1 + r * 2) (Some c) None 1;
    Ellipse (x1, y2 - r * 2, x1 + r * 2, y2) (Some c) None 1;
    Ellipse (x2 - r * 2, y2 - r * 2, x2, y2) (Some c) None 1 ].



(** Whatever the rasteriser, the six shapes stay in the rectangle and
    contain the two bands. *)
Lemma six_shapes_bounds (E : rasteriser) (x1 y1 x2 y2 r : Z) (c : color)
    (x y : Z) :
  0 < r -> 2 * r <= x2 - x1 -> 2 * r <= y2 - y1 ->
  (painted E (six_shapes x1 y1 x2 y2 r c) x y = true ->
   in_box (x1, y1, x2, y2) x y = true)
  /\ (in_box (x1 + r, y1, x2 - r, y2) x y
      || in_box (x1, y1 + r, x2, y2 - r) x y = true ->
      painted E (six_shapes x1 y1 x2 y2 r c) x y = true).
Proof.
  intros Hr Hw Hh. unfold painted, six_shapes. cbn [existsb fill_region].
  split.
  - unfold in_box.
    rewrite !Bool.orb_true_iff, !Bool.andb_true_iff, !Z.leb_le.
    intros [H|[H|[[H _]|[[H _]|[[H _]|[[H _]|H]]]]]];
      try discriminate H; lia.
  - intros H. apply Bool.orb_true_iff in H as [H|H]; rewrite H.
    + reflexivity.
    + apply Bool.orb_true_r.
Qed.

(** Calls that all carry the same fill colour store that colour on
    the union of their interiors, once. *)
Lemma paint_fill_same_ink (E : rasteriser) (c : color)
    (cmds : list DrawCmd) :
  Forall (fun cmd => fill_of cmd = Some c) cmds ->
  forall (img : image) (x y : Z),
    px (paint (render_fill E) cmds img) x y
    = if in_image img x y && painted E cmds x y
      then ink c else px img x y.
Proof.
  unfold painted.
  induction 1 as [|cmd cmds Hc _ IH]; intros img x y.
  - cbn. rewrite Bool.andb_false_r. reflexivity.
  - change (paint (render_fill E) (cmd :: cmds) img)
      with (paint (render_fill E) cmds (render_fill E cmd img)).
    rewrite IH. unfold render_fill. rewrite Hc.
    change (in_image (store (ink c) (fill_region E cmd) img) x y)
      with (in_image img x y).
    cbn [existsb px store].
    destruct (in_image img x y), (fill_region E cmd x y),
      (existsb (fun cmd0 => fill_region E cmd0 x y) cmds); reflexivity.
Qed.

Lemma filled_calls_share_ink (x1 y1 x2 y2 radius : Z) (c : color) :
  Forall (fun cmd => fill_of cmd = Some c)
         (draw_filled_rounded_rect x1 y1 x2 y2 radius c).
Proof.
  rewrite draw_filled_rounded_rect_sorts.
  rewrite draw_filled_rounded_rect_normalized by lia. cbv zeta.
  destruct (_ <=? 0); repeat constructor.
Qed.

(** After the fill primitive, a pixel holds either the fill colour (when
    a shape contains it) or what it held before. *)
Lemma filled_rounded_rect_effect (E : rasteriser) (x1 y1 x2 y2 radius : Z)
    (c : color) (img : image) (x y : Z) :
  px (paint (render_fill E) (draw_filled_rounded_rect x1 y1 x2 y2 radius c)
        img) x y
  = if in_image img x y
       && painted E (draw_filled_rounded_rect x1 y1 x2 y2 radius c) x y
    then ink c else px img x y.
Proof. apply paint_fill_same_ink, filled_calls_share_ink. Qed.

(** The rectangles of the fill are painted whatever the rasteriser, and
    nothing is painted outside the rectangle of the sorted corners. *)
Lemma filled_rounded_rect_painted (E : rasteriser) (x1 y1 x2 y2 radius : Z)
    (c : color) (x y : Z) :
  (band_area x1 y1 x2 y2 radius x y = true ->
   painted E (draw_filled_rounded_rect x1 y1 x2 y2 radius c) x y = true)
  /\ (painted E (draw_filled_rounded_rect x1 y1 x2 y2 radius c) x y = true ->
      in_box (Z.min x1 x2, Z.min y1 y2, Z.max x1 x2, Z.max y1 y2) x y
      = true).
Proof.
  rewrite draw_filled_rounded_rect_sorts.
  rewrite draw_filled_rounded_rect_normalized by lia.
  unfold band_area. cbv zeta.
  set (X1 := Z.min x1 x2). set (Y1 := Z.min y1 y2).
  set (X2 := Z.max x1 x2). set (Y2 := Z.max y1 y2).
  pose proof (clamped_radius_le_max X1 Y1 X2 Y2 radius) as Hle.
  pose proof (max_radius_half_sides X1 Y1 X2 Y2) as [Hw Hh].
  set (r := clamped_radius X1 Y1 X2 Y2 radius) in *.
  destruct (Z.leb_spec r 0) as [Hr|Hr].
  - unfold painted. cbn [existsb fill_region].
    rewrite Bool.orb_false_r. split; intros H; exact H.
  - destruct (six_shapes_bounds E X1 Y1 X2 Y2 r c x y) as [Hin Hband];
      try lia.
    split; assumption.
Qed.

Lemma paint_fill_keeps_dimensions (E : rasteriser) (cmds : list DrawCmd) :
  forall img : image,
    width (paint (render_fill E) cmds img) = width img
    /\ height (paint (render_fill E) cmds img) = height img.
Proof.
  induction cmds as [|cmd cmds IH]; intros img; [split; reflexivity|].
  change (paint (render_fill E) (cmd :: cmds) img)
    with (paint (render_fill E) cmds (render_fill E cmd img)).
  destruct (IH (render_fill E cmd img)) as [Hw Hh].
  rewrite Hw, Hh. unfold render_fill.
  destruct (fill_of cmd); split; reflexivity.
Qed.


End FillFacts.




(** C5, as the code has it: after the fill primitive every pixel holds
    either the fill colour, alpha channel included, exactly as it was
    passed, or the value it held before; it holds the fill colour at every
    point of the image that a shape contains, which whatever the ellipse
    rasteriser includes the whole rectangle when the clamped radius is
    not positive and both bands otherwise.  The result at a painted pixel
    never depends on what was beneath: nothing is composited. *)
Theorem fill_stores_colour_over_anything
    (E : Raster.rasteriser) (x1 y1 x2 y2 radius : Z) (c : color)
    (img : Raster.image) (x y : Z) :
  let shapes := draw_filled_rounded_rect x1 y1 x2 y2 radius c in
  let after := paint (Raster.render_fill E) shapes img in
  Raster.px after x y
    = (if Raster.in_image img x y && Raster.painted E shapes x y
       then Raster.ink c else Raster.px img x y)
  /\ (Raster.in_image img x y = true ->
      Raster.band_area x1 y1 x2 y2 radius x y = true ->
      Raster.px after x y = Raster.ink c)
  /\ (forall img' : Raster.image,
        Raster.in_image img x y = true ->
        Raster.in_image img' x y = true ->
        Raster.painted E shapes x y = true ->
        Raster.px (paint (Raster.render_fill E) shapes img') x y
        = Raster.px after x y)
  /\ (forall r g b a, c = RGBA r g b a -> Raster.ink c = (r, g, b, a)).
Proof.
  cbv zeta. split; [apply filled_rounded_rect_effect|].
  split; [|split].
  - intros Hi Hb. rewrite filled_rounded_rect_effect, Hi.
    rewrite (proj1 (filled_rounded_rect_painted E x1 y1 x2 y2 radius c x y)
               Hb).
    reflexivity.
  - intros img' Hi Hi' Hp. rewrite !filled_rounded_rect_effect.
    rewrite Hi, Hi', Hp. reflexivity.
  - intros r g b a ->. reflexivity.
Qed.

(** The fill of the top-left cell of the 512-pixel icon (alpha 40), over
    the opaque background that [Image.new] lays down: whatever the
    ellipse rasteriser does, the pixel (150,150), which lies in both
    bands, becomes the fill colour with alpha 40, and the background value
    is gone; the alpha-over composite would be the opaque
    (8,48,52,255). *)
Lemma tile_fill_replaces_background :
  let beneath := Raster.new 512 512 (plain DARK_BG) in
  let fill := with_alpha NEON_CYAN 40 in
  tiles 512 !! 2%nat
    = Some (call_filled_rounded_rect 100 100 248 248 12 fill)
  /\ Raster.px beneath 150 150 = (10, 10, 15, 255)
  /\ (forall E,
        Raster.px
          (paint (Raster.render_fill E)
             (draw_filled_rounded_rect 100 100 248 248 12 fill) beneath)
          150 150
        = (0, 255, 255, 40))
  /\ Raster.alpha_over (Raster.ink fill) (Raster.px beneath 150 150)
     = (8, 48, 52, 255)
  /\ (forall E,
        Raster.px
          (paint (Raster.render_fill E)
             (draw_filled_rounded_rect 100 100 248 248 12 fill) beneath)
          150 150
        <> Raster.alpha_over (Raster.ink fill) (Raster.px beneath 150 150)).
Proof.
  cbv zeta.
  split; [vm_compute; reflexivity|].
  split; [vm_compute; reflexivity|].
  split; [intros E; vm_compute; reflexivity|].
  split; [vm_compute; reflexivity|].
  intros E. vm_compute. discriminate.
Qed.

(** * Further properties of the script *)

(** ** Shape of what the primitives issue *)

(** Turns a boolean conjunction of comparisons into arithmetic. *)
Ltac bool_arith :=
  cbn;
  repeat match goal with
         | |- andb _ _ = true => apply andb_true_intro; split
         | |- (_ <=? _) = true => apply Z.leb_le
         | |- (_ <? _) = true => apply Z.ltb_lt
         | |- true = true => reflexivity
         end;
  try lia.

(** X1: for all corner points, in any order, and every radius, each
    bounding box the two primitives hand to Pillow is ordered (second
    corner not left of or above the first) and each edge segment runs
    from its left or upper end to its right or lower end: the clamp keeps
    the geometry valid. *)
Theorem primitives_issue_ordered_calls
    (x1 y1 x2 y2 radius : Z) (c : color) (w : Z) :
  forallb cmd_ordered (draw_rounded_rect x1 y1 x2 y2 radius c w) = true
  /\ forallb cmd_ordered (draw_filled_rounded_rect x1 y1 x2 y2 radius c)
     = true.
Proof.
  rewrite draw_rounded_rect_sorts, draw_filled_rounded_rect_sorts.
  rewrite draw_rounded_rect_normalized,
    draw_filled_rounded_rect_normalized by lia.
  cbv zeta.
  set (X1 := Z.min x1 x2). set (Y1 := Z.min y1 y2).
  set (X2 := Z.max x1 x2). set (Y2 := Z.max y1 y2).
  assert (X1 <= X2 /\ Y1 <= Y2) as [HX HY] by (subst X1 X2 Y1 Y2; lia).
  pose proof (clamped_radius_le_max X1 Y1 X2 Y2 radius) as Hle.
  pose proof (max_radius_half_sides X1 Y1 X2 Y2) as [Hw Hh].
  set (r := clamped_radius X1 Y1 X2 Y2 radius) in *.
  clearbody r X1 X2 Y1 Y2.
  destruct (Z.leb_spec r 0); split; bool_arith.
Qed.

(** X2: no call of either primitive mentions a point outside the
    rectangle spanned by the two given corners. *)
Theorem primitives_stay_inside_rectangle
    (x1 y1 x2 y2 radius : Z) (c : color) (w : Z) :
  let bounds := (Z.min x1 x2, Z.min y1 y2, Z.max x1 x2, Z.max y1 y2) in
  forallb (cmd_inside bounds) (draw_rounded_rect x1 y1 x2 y2 radius c w)
    = true
  /\ forallb (cmd_inside bounds)
       (draw_filled_rounded_rect x1 y1 x2 y2 radius c) = true.
Proof.
  cbv zeta.
  rewrite draw_rounded_rect_sorts, draw_filled_rounded_rect_sorts.
  rewrite draw_rounded_rect_normalized,
    draw_filled_rounded_rect_normalized by lia.
  cbv zeta.
  set (X1 := Z.min x1 x2). set (Y1 := Z.min y1 y2).
  set (X2 := Z.max x1 x2). set (Y2 := Z.max y1 y2).
  assert (X1 <= X2 /\ Y1 <= Y2) as [HX HY] by (subst X1 X2 Y1 Y2; lia).
  pose proof (clamped_radius_le_max X1 Y1 X2 Y2 radius) as Hle.
  pose proof (max_radius_half_sides X1 Y1 X2 Y2) as [Hw Hh].
  set (r := clamped_radius X1 Y1 X2 Y2 radius) in *.
  clearbody r X1 X2 Y1 Y2.
  destruct (Z.leb_spec r 0); split; bool_arith.
Qed.

Lemma quarter_point_circle (x0 y0 x1 y1 r angle : Z) :
  x1 - x0 = r * 2 -> y1 - y0 = r * 2 ->
  quarter_point (x0, y0, x1, y1) angle
  = match angle mod 360 with
    | 0 => Some (x1, y0 + r)
    | 90 => Some (x0 + r, y1)
    | 180 => Some (x0, y0 + r)
    | 270 => Some (x0 + r, y0)
    | _ => None
    end.
Proof.
  intros Hx Hy. unfold quarter_point.
  replace ((x0 + x1) / 2) with (x0 + r)
    by (apply Z.div_unique_exact; lia).
  replace ((y0 + y1) / 2) with (y0 + r)
    by (apply Z.div_unique_exact; lia).
  reflexivity.
Qed.

(** X3: with a positive clamped radius the eight strokes of the outline
    form one closed path.  Going clockwise from the top edge: the top
    edge ends where the top-right arc starts, that arc ends where the
    right edge starts, and so on through the bottom-right arc, the bottom
    edge, the bottom-left arc, the left edge and the top-left arc, which
    ends where the top edge starts. *)
Theorem rounded_outline_is_closed
    (x1 y1 x2 y2 radius : Z) (c : color) (w : Z) :
  x1 <= x2 -> y1 <= y2 ->
  0 < clamped_radius x1 y1 x2 y2 radius ->
  exists top bottom left right top_left top_right bottom_left bottom_right,
    map cmd_ends (draw_rounded_rect x1 y1 x2 y2 radius c w)
    = [ Some top; Some bottom; Some left; Some right;
        Some top_left; Some top_right; Some bottom_left; Some bottom_right ]
    /\ snd top = fst top_right
    /\ snd top_right = fst right
    /\ snd right = fst bottom_right
    /\ snd bottom_right = snd bottom
    /\ fst bottom = fst bottom_left
    /\ snd bottom_left = snd left
    /\ fst left = fst top_left
    /\ snd top_left = fst top.
Proof.
  intros Hx Hy Hr.
  rewrite draw_rounded_rect_normalized by assumption. cbv zeta.
  set (r := clamped_radius x1 y1 x2 y2 radius) in *.
  destruct (Z.leb_spec r 0) as [|_]; [lia|].
  cbn [map cmd_ends].
  rewrite !(quarter_point_circle x1 y1 _ _ r) by lia.
  rewrite !(quarter_point_circle (x2 - r * 2) y1 _ _ r) by lia.
  rewrite !(quarter_point_circle x1 (y2 - r * 2) _ _ r) by lia.
  rewrite !(quarter_point_circle (x2 - r * 2) (y2 - r * 2) _ _ r) by lia.
  cbn.
  do 8 eexists. split; [reflexivity|]. cbn.
  repeat split; f_equal; lia.
Qed.

Lemma rounded_outline_is_closed_witness :
  exists top bottom left right top_left top_right bottom_left bottom_right,
    map cmd_ends (draw_rounded_rect 0 0 10 6 2 (RGB 0 255 255) 1)
    = [ Some top; Some bottom; Some left; Some right;
        Some top_left; Some top_right; Some bottom_left; Some bottom_right ]
    /\ snd top = fst top_right
    /\ snd top_right = fst right
    /\ snd right = fst bottom_right
    /\ snd bottom_right = snd bottom
    /\ fst bottom = fst bottom_left
    /\ snd bottom_left = snd left
    /\ fst left = fst top_left
    /\ snd top_left = fst top.
Proof.
  exact (rounded_outline_is_closed 0 0 10 6 2 (RGB 0 255 255) 1
           ltac:(lia) ltac:(lia) ltac:(vm_compute; reflexivity)).
Defined.

(** ** Geometry of the composition routine at every size *)

Lemma int_scaled_div (k size : Z) :
  0 <= k -> 0 <= size -> int_scaled k size = k * size / 512.
Proof.
  intros Hk Hs. unfold int_scaled. apply Z.quot_div_nonneg; nia.
Qed.




(** X5: the three glow outlines and the main border are proper
    rectangles inside the canvas exactly from size 52 on; below that
    (at the table sizes 16 and 32, for instance) the outermost glow
    outline starts left of and above the canvas. *)
Theorem border_inside_canvas_from_52 (size : Z) :
  0 <= size ->
  forallb (rect_within size) (outer_glow size ++ main_border size) = true
  <-> 52 <= size.
Proof.
  intros Hs. unfold outer_glow, main_border, py_countdown, padding.
  rewrite int_scaled_div by lia.
  cbn [seq map app forallb rect_within call_rect].
  pose proof (Z.div_mod (60 * size) 512 ltac:(lia)) as Hdm.
  pose proof (Z.mod_pos_bound (60 * size) 512 ltac:(lia)) as Hr.
  set (p := 60 * size / 512) in *.
  split.
  - intros H. apply andb_prop in H as [H _].
    repeat (apply andb_prop in H as [H ?]).
    apply Z.leb_le in H. lia.
  - intros H. bool_arith.
Qed.

Lemma border_inside_canvas_from_52_witness :
  forallb (rect_within 64) (outer_glow 64 ++ main_border 64) = true
  <-> 52 <= 64.
Proof.
  exact (border_inside_canvas_from_52 64 ltac:(lia)).
Defined.

(** Names the scaled constants of the tile grid and records the
    equations of their floor divisions, for linear arithmetic. *)
Ltac tile_constants size :=
  unfold cell_size, grid_size, grid_padding, cell_gap in *;
  rewrite ?(int_scaled_div 100 size), ?(int_scaled_div 16 size),
    ?(int_scaled_div 12 size), ?(int_scaled_div 2 size),
    ?(int_scaled_div 3 size) in * by lia;
  pose proof (Z.div_mod (100 * size) 512 ltac:(lia));
  pose proof (Z.mod_pos_bound (100 * size) 512 ltac:(lia));
  pose proof (Z.div_mod (16 * size) 512 ltac:(lia));
  pose proof (Z.mod_pos_bound (16 * size) 512 ltac:(lia));
  pose proof (Z.div_mod (12 * size) 512 ltac:(lia));
  pose proof (Z.mod_pos_bound (12 * size) 512 ltac:(lia));
  set (gp := 100 * size / 512) in *;
  set (gap := 16 * size / 512) in *;
  set (corner := 12 * size / 512) in *;
  pose proof (Z.div_mod (size - gp * 2 - gap) 2 ltac:(lia));
  pose proof (Z.mod_pos_bound (size - gp * 2 - gap) 2 ltac:(lia));
  set (cs := (size - gp * 2 - gap) / 2) in *.

(** X6: the sixteen rectangles of the tile grid, glow outlines included,
    are proper rectangles inside the canvas exactly from size 11 on, and
    from there on the cell size is positive: the bounds hold at every
    size the routine may be given, not only at the table sizes. *)
Theorem tiles_inside_canvas_from_11 (size : Z) :
  0 <= size ->
  (forallb (rect_within size) (tiles size) = true <-> 11 <= size)
  /\ (11 <= size -> 0 < cell_size size).
Proof.
  intros Hs.
  unfold tiles, tile_positions, tile_colors, tile, py_countdown.
  cbn [combine flat_map seq map app forallb rect_within call_rect].
  tile_constants size.
  split; [split|].
  - intros Hb. apply andb_prop in Hb as [Hb _].
    repeat (apply andb_prop in Hb as [Hb ?]).
    apply Z.leb_le in Hb. lia.
  - intros Hge. bool_arith.
  - intros Hge. lia.
Qed.

Lemma tiles_inside_canvas_from_11_witness :
  (forallb (rect_within 16) (tiles 16) = true <-> 11 <= 16)
  /\ (11 <= 16 -> 0 < cell_size 16).
Proof.
  exact (tiles_inside_canvas_from_11 16 ltac:(lia)).
Defined.

Lemma lines_are_unclamped {A : Type} (f : A -> point) (g : A -> point)
    (fill : color) (w : Z) (l : list A) :
  forallb radius_unclamped (map (fun a => draw_line (f a) (g a) fill w) l)
  = true.
Proof. induction l as [|a l IH]; [reflexivity | exact IH]. Qed.

(** X7: at every size from 0 on, each call the composition routine
    makes to a primitive passes its corners in normalized order and asks
    for a radius of at most half the shorter side: the clamp of the
    primitives never changes a radius the routine asks for. *)
Theorem routine_radii_are_never_clamped (size : Z) :
  0 <= size ->
  forallb radius_unclamped (icon_calls size) = true.
Proof.
  intros Hs.
  assert (Hgrid : forallb radius_unclamped (background_grid size) = true).
  { unfold background_grid. destruct (2 <? grid_spacing size); [|reflexivity].
    rewrite forallb_app.
    rewrite (lines_are_unclamped (fun x => (x, 0)) (fun x => (x, size))).
    rewrite (lines_are_unclamped (fun y => (0, y)) (fun y => (size, y))).
    reflexivity. }
  assert (Hscan : forallb radius_unclamped (scanlines size) = true).
  { unfold scanlines. destruct (128 <=? size); [|reflexivity].
    apply (lines_are_unclamped (fun y => (0, y)) (fun y => (size, y))). }
  assert (Hborder : forallb radius_unclamped
                      (outer_glow size ++ main_border size) = true).
  { unfold outer_glow, main_border, py_countdown, padding, corner_radius.
    rewrite (int_scaled_div 60), (int_scaled_div 80) by lia.
    cbn [seq map app forallb radius_unclamped call_rect call_radius].
    unfold max_radius.
    pose proof (Z.div_mod (60 * size) 512 ltac:(lia)).
    pose proof (Z.mod_pos_bound (60 * size) 512 ltac:(lia)).
    pose proof (Z.div_mod (80 * size) 512 ltac:(lia)).
    pose proof (Z.mod_pos_bound (80 * size) 512 ltac:(lia)).
    set (p := 60 * size / 512) in *. set (c := 80 * size / 512) in *.
    bool_arith;
      apply Z.min_glb; apply Z.div_le_lower_bound; lia. }
  assert (Htiles : forallb radius_unclamped (tiles size) = true).
  { unfold tiles, tile_positions, tile_colors, tile, py_countdown.
    cbn [combine flat_map seq map app forallb radius_unclamped
         call_rect call_radius].
    unfold max_radius.
    tile_constants size.
    bool_arith;
      apply Z.min_glb; apply Z.div_le_lower_bound; lia. }
  unfold icon_calls.
  rewrite forallb_app, Hgrid, app_assoc, forallb_app, Hborder,
    forallb_app, Htiles, forallb_app, Hscan.
  reflexivity.
Qed.

Lemma routine_radii_are_never_clamped_witness :
  forallb radius_unclamped (icon_calls 16) = true.
Proof.
  exact (routine_radii_are_never_clamped 16 ltac:(lia)).
Defined.

(** X8: the cells of the tile grid have square corners up to size 42
    and rounded corners from size 43 on.  Up to 42 the scaled corner
    radius is 0, so the cell fill and the cell border each fall back to
    one plain rectangle; from 43 on the fill issues its six shapes and
    the border its eight strokes, with the radius asked for. *)
Theorem tile_cells_are_plain_up_to_42
    (size tx ty : Z) (c : color) (w : Z) :
  0 <= size ->
  let x2 := tx + cell_size size in
  let y2 := ty + cell_size size in
  let corner := int_scaled 12 size in
  (size <= 42 ->
   draw_filled_rounded_rect tx ty x2 y2 corner c
     = [Rectangle (tx, ty, x2, y2) (Some c) None 1]
   /\ draw_rounded_rect tx ty x2 y2 corner c w
     = [Rectangle (tx, ty, x2, y2) None (Some c) w])
  /\ (43 <= size ->
      clamped_radius tx ty x2 y2 corner = corner
      /\ 0 < corner
      /\ length (draw_filled_rounded_rect tx ty x2 y2 corner c) = 6%nat
      /\ length (draw_rounded_rect tx ty x2 y2 corner c w) = 8%nat).
Proof.
  intros Hs x2 y2 corner0.
  assert (Hcs : 0 <= cell_size size /\ corner0 <= cell_size size / 2
                /\ (size <= 42 -> corner0 = 0)
                /\ (43 <= size -> 0 < corner0)).
  { subst corner0. tile_constants size.
    repeat split; try lia. apply Z.div_le_lower_bound; lia. }
  destruct Hcs as (Hcs & Hhalf & Hsmall & Hbig).
  assert (Hclamp : clamped_radius tx ty x2 y2 corner0 = corner0).
  { unfold clamped_radius, max_radius. subst x2 y2.
    replace (tx + cell_size size - tx) with (cell_size size) by lia.
    replace (ty + cell_size size - ty) with (cell_size size) by lia.
    lia. }
  rewrite draw_filled_rounded_rect_normalized,
    draw_rounded_rect_normalized by (subst x2 y2; lia).
  cbv zeta. rewrite Hclamp.
  split.
  - intros Hle. rewrite (Hsmall Hle). split; reflexivity.
  - intros Hge. specialize (Hbig Hge).
    destruct (Z.leb_spec corner0 0); [lia|].
    repeat split; try reflexivity. assumption.
Qed.

Lemma tile_cells_are_plain_up_to_42_witness :
  draw_filled_rounded_rect 3 3 (3 + cell_size 16) (3 + cell_size 16)
    (int_scaled 12 16) (RGBA 0 255 255 40)
  = [Rectangle (3, 3, 3 + cell_size 16, 3 + cell_size 16)
       (Some (RGBA 0 255 255 40)) None 1].
Proof.
  exact (proj1 (proj1 (tile_cells_are_plain_up_to_42 16 3 3
                         (RGBA 0 255 255 40) 1 ltac:(lia))
                 ltac:(lia))).
Defined.

(** ** Pixels the fill leaves alone *)

(** X9: whatever Pillow's ellipse rasteriser does inside the circles'
    bounding boxes, the fill primitive keeps the dimensions of the image
    and never changes a pixel outside the image or outside the rectangle
    spanned by the two given corners, for every radius and every order
    of the corners. *)
Theorem fill_leaves_outside_untouched
    (E : Raster.rasteriser) (x1 y1 x2 y2 radius : Z) (c : color)
    (img : Raster.image) (x y : Z) :
  let after :=
    paint (Raster.render_fill E)
      (draw_filled_rounded_rect x1 y1 x2 y2 radius c) img in
  Raster.width after = Raster.width img
  /\ Raster.height after = Raster.height img
  /\ (Raster.in_image img x y
      && Raster.in_box (Z.min x1 x2, Z.min y1 y2, Z.max x1 x2, Z.max y1 y2)
           x y = false ->
      Raster.px after x y = Raster.px img x y).
Proof.
  cbv zeta.
  destruct (paint_fill_keeps_dimensions E
              (draw_filled_rounded_rect x1 y1 x2 y2 radius c) img)
    as [Hw Hh].
  split; [exact Hw|]. split; [exact Hh|].
  intros Hout. rewrite filled_rounded_rect_effect.
  destruct (Raster.in_image img x y) eqn:Hi; [|reflexivity].
  cbn [andb] in *.
  destruct (Raster.painted E
              (draw_filled_rounded_rect x1 y1 x2 y2 radius c) x y) eqn:Hp;
    [|reflexivity].
  apply (proj2 (filled_rounded_rect_painted E x1 y1 x2 y2 radius c x y))
    in Hp.
  congruence.
Qed.

(** ** The entry point *)

Lemma append_cancel_l (p a b : string) :
  (p ++ a)%string = (p ++ b)%string -> a = b.
Proof.
  induction p as [|ch p IH]; simpl; intros H; [exact H|].
  injection H as H. exact (IH H).
Qed.

Lemma path_join_cancel (d a b : string) :
  path_join d a = path_join d b -> a = b.
Proof.
  unfold path_join. intros H.
  apply append_cancel_l in H. apply (append_cancel_l "/") in H. exact H.
Qed.

Section MainFacts.

Context {Canvas : Type}.
Variable Image_new : Z -> Z -> color -> Canvas.
Variable render : DrawCmd -> Canvas -> Canvas.

(** The canvas the routine builds for a size. *)
Let icon (size : Z) : Canvas :=
  paint render (icon_cmds size) (Image_new size size (plain DARK_BG)).

Lemma generate_row_effect (w : World Canvas) (size : Z)
    (scale filename : string) :
  let w' := generate_row Image_new render w (size, scale, filename) in
  files w' = <[path_join ICON_DIR filename := PNG (icon size)]> (files w)
  /\ stdout w' = stdout w ++ [creating_line (size, scale, filename)]
  /\ length (heap w') = S (length (heap w))
  /\ forall j, (j < length (heap w))%nat -> heap w' !! j = heap w !! j.
Proof.
  cbv zeta. unfold generate_row.
  pose proof (create_cyberpunk_icon_result Image_new render size
                (heap (print (creating_line (size, scale, filename)) w)))
    as (Hfst & Hget & Hframe).
  destruct (create_cyberpunk_icon Image_new render size _)
    as [img heap'] eqn:E.
  cbn [fst snd heap print] in *.
  unfold save. cbn [heap files stdout]. rewrite Hget.
  cbn [heap files stdout print].
  split; [reflexivity|]. split; [reflexivity|].
  split; [|exact Hframe].
  unfold create_cyberpunk_icon, new_image in E. injection E as _ <-.
  clear. set (h0 := heap w ++ _).
  assert (Hlen : forall cmds h, length
            (fold_left (fun h cmd => draw_on render (length (heap w)) cmd h)
               cmds h) = length h).
  { induction cmds as [|cmd cmds IH]; intros h; [reflexivity|].
    simpl. rewrite IH. apply draw_on_length. }
  rewrite Hlen. subst h0. rewrite length_app. simpl. lia.
Qed.

Lemma generate_rows_cons (row : Z * string * string)
    (rows : list (Z * string * string)) (w : World Canvas) :
  generate_rows Image_new render (row :: rows) w
  = generate_rows Image_new render rows (generate_row Image_new render w row).
Proof. reflexivity. Qed.

(** The loop leaves a file alone unless a row names it. *)
Lemma generate_rows_frame (rows : list (Z * string * string)) (p : string) :
  (forall row, In row rows -> path_join ICON_DIR (snd row) <> p) ->
  forall w : World Canvas,
    files (generate_rows Image_new render rows w) !! p = files w !! p.
Proof.
  induction rows as [|[[size scale] filename] rows IH]; intros Hp w;
    [reflexivity|].
  rewrite generate_rows_cons.
  rewrite IH by (intros row Hin; apply Hp; right; exact Hin).
  destruct (generate_row_effect w size scale filename) as (Hf & _).
  rewrite Hf. apply lookup_insert_ne.
  apply (Hp (size, scale, filename)). left. reflexivity.
Qed.

(** With distinct file names, every row's file holds that row's icon
    when the loop ends. *)
Lemma generate_rows_files (rows : list (Z * string * string)) :
  List.NoDup (map snd rows) ->
  forall (w : World Canvas) size scale filename,
    In (size, scale, filename) rows ->
    files (generate_rows Image_new render rows w)
      !! path_join ICON_DIR filename
    = Some (PNG (icon size)).
Proof.
  induction rows as [|[[size0 scale0] filename0] rows IH];
    intros Hnd w size scale filename Hin; [destruct Hin|].
  inversion Hnd as [|? ? Hnotin Hnd']; subst.
  rewrite generate_rows_cons.
  destruct Hin as [Heq|Hin].
  - injection Heq as -> -> ->.
    rewrite generate_rows_frame.
    + destruct (generate_row_effect w size scale filename) as (Hf & _).
      rewrite Hf. apply lookup_insert_eq.
    + intros row Hrow Hpath. apply path_join_cancel in Hpath.
      apply Hnotin. rewrite <- Hpath. apply in_map. exact Hrow.
  - eapply IH; eassumption.
Qed.

Lemma generate_rows_counts (rows : list (Z * string * string)) :
  forall w : World Canvas,
    let w' := generate_rows Image_new render rows w in
    stdout w' = stdout w ++ map creating_line rows
    /\ length (heap w') = (length (heap w) + length rows)%nat
    /\ forall j, (j < length (heap w))%nat -> heap w' !! j = heap w !! j.
Proof.
  induction rows as [|[[size scale] filename] rows IH]; intros w; cbv zeta.
  - cbn. rewrite app_nil_r. repeat split; lia.
  - rewrite generate_rows_cons.
    destruct (generate_row_effect w size scale filename)
      as (_ & Ho & Hh & Hfr).
    destruct (IH (generate_row Image_new render w (size, scale, filename)))
      as (Ho' & Hh' & Hfr').
    cbn [length map]. rewrite Ho', Hh', Ho, Hh, <- app_assoc.
    repeat split; try lia.
    intros j Hj. rewrite Hfr' by lia. apply Hfr, Hj.
Qed.

End MainFacts.

Lemma SIZES_filenames_distinct : List.NoDup (map snd SIZES).
Proof.
  unfold SIZES. cbn [map snd].
  repeat (constructor 2; [cbn; intuition discriminate|]).
  constructor 1.
Qed.

(** X10: whatever the state [main] starts from, when it returns the
    output directory holds, for every row of the size table, a PNG file
    under the row's name with the icon composed for the row's pixel size
    (no row overwrites another), and the file Contents.json with the
    manifest; every other file is as it was, the images that were in
    memory are as they were and ten images were created.  It makes
    thirteen calls of [print], in this order: the opening message, one
    "Creating" message per row in table order, the "Done" message and the
    hint to rebuild; the "Done" message starts with a line break, so
    fourteen lines are written. *)
Theorem main_writes_icons_and_manifest
    (Canvas : Type) (Image_new : Z -> Z -> color -> Canvas)
    (render : DrawCmd -> Canvas -> Canvas) (w : World Canvas) :
  let w' := main Image_new render w in
  let printed :=
    (["Generating Tron/Cyberpunk app icons..."%string]
     ++ map creating_line SIZES
     ++ [ (newline ++ "Done! Icons saved to " ++ ICON_DIR ++ "/")%string;
          "Rebuild your Xcode project to see the new icons."%string ])%list
  in
  (forall size scale filename,
      In (size, scale, filename) SIZES ->
      files w' !! path_join ICON_DIR filename
      = Some (PNG (paint render (icon_cmds size)
                     (Image_new size size (plain DARK_BG)))))
  /\ files w' !! path_join ICON_DIR "Contents.json"
     = Some (JSON Manifest.generate_contents_json)
  /\ (forall p,
        p <> path_join ICON_DIR "Contents.json" ->
        (forall row, In row SIZES -> path_join ICON_DIR (snd row) <> p) ->
        files w' !! p = files w !! p)
  /\ length (heap w') = (length (heap w) + 10)%nat
  /\ (forall j, (j < length (heap w))%nat -> heap w' !! j = heap w !! j)
  /\ stdout w' = stdout w ++ printed
  /\ length printed = 13%nat
  /\ lines_printed printed = 14%nat.
Proof.
  cbv zeta. unfold main.
  set (w0 := print "Generating Tron/Cyberpunk app icons..." w).
  assert (Hheap0 : heap w0 = heap w) by reflexivity.
  assert (Hfiles0 : files w0 = files w) by reflexivity.
  assert (Hout0 : stdout w0
                  = stdout w ++ ["Generating Tron/Cyberpunk app icons..."%string])
    by reflexivity.
  clearbody w0.
  destruct (generate_rows_counts Image_new render SIZES w0)
    as (Ho & Hh & Hfr).
  set (w1 := generate_rows Image_new render SIZES w0) in *.
  cbn [files heap stdout print].
  split; [|split; [|split; [|split; [|split; [|split; [|split]]]]]].
  - intros size scale filename Hin.
    rewrite lookup_insert_ne.
    + apply (generate_rows_files Image_new render SIZES
               SIZES_filenames_distinct w0 size scale filename Hin).
    + intros Hpath. apply path_join_cancel in Hpath. subst filename.
      revert Hin. unfold SIZES. cbn. intuition discriminate.
  - apply lookup_insert_eq.
  - intros p Hp Hrows. rewrite lookup_insert_ne by congruence.
    subst w1. rewrite generate_rows_frame by exact Hrows.
    rewrite Hfiles0. reflexivity.
  - rewrite Hh, Hheap0. reflexivity.
  - intros j Hj. rewrite Hfr by (rewrite Hheap0; exact Hj).
    rewrite Hheap0. reflexivity.
  - rewrite Ho, Hout0. rewrite <- !app_assoc. reflexivity.
  - reflexivity.
  - vm_compute. reflexivity.
Qed.

(** ** The corner accents *)

(** X11: from size 7 on (where the main border is rounded), the four
    corner accents start exactly at the four ends of the top-left and the
    bottom-right arc of the main border, which are the ends of the left,
    top, right and bottom edge there, and run along that edge for
    [accent_len] pixels, which is never more than the edge is long; the
    accents are never wider than the border stroke.  They recolour a
    stretch of the border edges. *)
Theorem corner_accents_lie_on_border (size : Z) :
  7 <= size ->
  exists top bottom left right top_left top_right bottom_left bottom_right,
    map cmd_ends (flat_map issue (main_border size))
    = [ Some top; Some bottom; Some left; Some right;
        Some top_left; Some top_right; Some bottom_left; Some bottom_right ]
    /\ map line_ends (corner_accents size)
       = [ Some (fst top_left,
                 (fst (fst top_left), snd (fst top_left) + accent_len size));
           Some (snd top_left,
                 (fst (snd top_left) + accent_len size, snd (snd top_left)));
           Some (fst bottom_right,
                 (fst (fst bottom_right),
                  snd (fst bottom_right) - accent_len size));
           Some (snd bottom_right,
                 (fst (snd bottom_right) - accent_len size,
                  snd (snd bottom_right))) ]
    /\ fst top_left = fst left
    /\ snd top_left = fst top
    /\ fst bottom_right = snd right
    /\ snd bottom_right = snd bottom
    /\ 0 <= accent_len size
    /\ accent_len size <= snd (snd left) - snd (fst left)
    /\ accent_len size <= fst (snd top) - fst (fst top)
    /\ accent_len size <= snd (snd right) - snd (fst right)
    /\ accent_len size <= fst (snd bottom) - fst (fst bottom)
    /\ forallb (lies_on (flat_map issue (main_border size)))
         (corner_accents size) = true
    /\ accent_width size <= border_width size.
Proof.
  intros Hs. unfold main_border, corner_accents, accent_len, accent_width,
    border_width, padding, corner_radius.
  rewrite (int_scaled_div 60), (int_scaled_div 80), (int_scaled_div 30),
    (int_scaled_div 4), (int_scaled_div 8) by lia.
  pose proof (Z.div_mod (60 * size) 512 ltac:(lia)).
  pose proof (Z.mod_pos_bound (60 * size) 512 ltac:(lia)).
  pose proof (Z.div_mod (80 * size) 512 ltac:(lia)).
  pose proof (Z.mod_pos_bound (80 * size) 512 ltac:(lia)).
  pose proof (Z.div_mod (30 * size) 512 ltac:(lia)).
  pose proof (Z.mod_pos_bound (30 * size) 512 ltac:(lia)).
  pose proof (Z.div_mod (4 * size) 512 ltac:(lia)).
  pose proof (Z.mod_pos_bound (4 * size) 512 ltac:(lia)).
  pose proof (Z.div_mod (8 * size) 512 ltac:(lia)).
  pose proof (Z.mod_pos_bound (8 * size) 512 ltac:(lia)).
  set (p := 60 * size / 512) in *. set (c := 80 * size / 512) in *.
  set (a := 30 * size / 512) in *.
  set (w4 := 4 * size / 512) in *. set (w8 := 8 * size / 512) in *.
  cbn [flat_map issue app].
  rewrite app_nil_r, draw_rounded_rect_normalized by lia. cbv zeta.
  assert (Hc : clamped_radius p p (size - p) (size - p) c = c).
  { unfold clamped_radius, max_radius.
    assert (c <= (size - p - p) / 2) by (apply Z.div_le_lower_bound; lia).
    lia. }
  rewrite Hc. destruct (Z.leb_spec c 0); [lia|].
  cbn [map cmd_ends line_ends].
  rewrite !(quarter_point_circle p p _ _ c) by lia.
  rewrite !(quarter_point_circle (size - p - c * 2) p _ _ c) by lia.
  rewrite !(quarter_point_circle p (size - p - c * 2) _ _ c) by lia.
  rewrite !(quarter_point_circle (size - p - c * 2) (size - p - c * 2) _ _ c)
    by lia.
  cbn [Z.modulo Z.div_eucl Z.pos_div_eucl Z.leb Z.ltb Z.compare
       Pos.compare Pos.compare_cont Z.mul Z.add Z.sub Pos.mul Pos.add
       Z.opp Z.pos_sub Z.succ_double Z.pred_double Z.double Pos.succ
       Pos.pred_double].
  do 8 eexists. split; [reflexivity|].
  cbn [fst snd].
  split; [repeat f_equal; lia|].
  split; [reflexivity|]. split; [reflexivity|].
  split; [f_equal; lia|]. split; [f_equal; lia|].
  split; [lia|]. split; [lia|]. split; [lia|]. split; [lia|]. split; [lia|].
  split; [|lia].
  cbn [forallb lies_on existsb on_stroke].
  repeat rewrite ?Bool.andb_true_iff, ?Bool.orb_true_iff, ?Z.leb_le,
    ?Z.eqb_eq.
  repeat split; lia.
Qed.

Lemma corner_accents_lie_on_border_witness :
  exists top bottom left right top_left top_right bottom_left bottom_right,
    map cmd_ends (flat_map issue (main_border 512))
    = [ Some top; Some bottom; Some left; Some right;
        Some top_left; Some top_right; Some bottom_left; Some bottom_right ]
    /\ map line_ends (corner_accents 512)
       = [ Some (fst top_left,
                 (fst (fst top_left), snd (fst top_left) + accent_len 512));
           Some (snd top_left,
                 (fst (snd top_left) + accent_len 512, snd (snd top_left)));
           Some (fst bottom_right,
                 (fst (fst bottom_right),
                  snd (fst bottom_right) - accent_len 512));
           Some (snd bottom_right,
                 (fst (snd bottom_right) - accent_len 512,
                  snd (snd bottom_right))) ]
    /\ fst top_left = fst left
    /\ snd top_left = fst top
    /\ fst bottom_right = snd right
    /\ snd bottom_right = snd bottom
    /\ 0 <= accent_len 512
    /\ accent_len 512 <= snd (snd left) - snd (fst left)
    /\ accent_len 512 <= fst (snd top) - fst (fst top)
    /\ accent_len 512 <= snd (snd right) - snd (fst right)
    /\ accent_len 512 <= fst (snd bottom) - fst (fst bottom)
    /\ forallb (lies_on (flat_map issue (main_border 512)))
         (corner_accents 512) = true
    /\ accent_width 512 <= border_width 512.
Proof.
  exact (corner_accents_lie_on_border 512 ltac:(lia)).
Defined.
